(** * Shallow embedding of [src/strategy/strategy.py] (class [Strategy])

    Conventions of the embedding:
    - coordinates are Python ints, modelled as [Z]; a coordinate pair is
      [(x, y)] with [x] the column and [y] the row, as in the source;
    - the board [enemy_board] is a list of rows, each a list of cells, and is
      read and written as [enemy_board[y][x]] with Python's list indexing
      (negative indices count from the end, anything else out of range raises
      [IndexError]);
    - Python lists used as stacks ([hit_stack], [to_check]) keep Python's
      order: [append] adds at the end and [pop()] removes the last element;
    - [ships_dict] is a Python dict [int -> int], modelled as an association
      list whose keys are distinct, kept in insertion order;
    - exceptions are modelled by the [result] monad below. *)

From Stdlib Require Import ZArith Lia.
From stdpp Require Import base list sorting.

Open Scope Z_scope.

(** ** Cells of the belief grid *)

(** The characters of [enemy_board]: ['?'], ['M'], ['H'], ['S'], ['X']. *)
Inductive cell := Unknown | Miss | Hit | Sunk | Eliminated.

Definition cell_eqb (a b : cell) : bool :=
  match a, b with
  | Unknown, Unknown | Miss, Miss | Hit, Hit | Sunk, Sunk
  | Eliminated, Eliminated => true
  | _, _ => false
  end.

(** [self.enemy_board[y][x] in {'H', 'S'}] *)
Definition is_hit_or_sunk (c : cell) : bool :=
  match c with Hit | Sunk => true | _ => false end.

(** ** Exceptions *)

Inductive exn := IndexError | KeyError | FuelExhausted.

Inductive result (A : Type) : Type :=
| Ok (a : A)
| Raise (e : exn).
Arguments Ok {A} a.
Arguments Raise {A} e.

Global Instance result_ret : MRet result := fun _ a => Ok a.
Global Instance result_bind : MBind result :=
  fun _ _ f m => match m with Ok a => f a | Raise e => Raise e end.

(** ** Python list indexing *)

(** Position in a list of length [len] designated by the Python index [i]. *)
Definition py_index (len i : Z) : option nat :=
  if (0 <=? i) && (i <? len) then Some (Z.to_nat i)
  else if (- len <=? i) && (i <? 0) then Some (Z.to_nat (len + i))
  else None.

(** [l[i]] *)
Definition py_get {A} (l : list A) (i : Z) : result A :=
  match py_index (Z.of_nat (length l)) i with
  | Some n => match l !! n with Some a => Ok a | None => Raise IndexError end
  | None => Raise IndexError
  end.

(** [l[i] = a] *)
Definition py_set {A} (l : list A) (i : Z) (a : A) : result (list A) :=
  match py_index (Z.of_nat (length l)) i with
  | Some n => Ok (<[n := a]> l)
  | None => Raise IndexError
  end.

Abbreviation board := (list (list cell)).

(** [self.enemy_board[y][x]] *)
Definition board_get (b : board) (x y : Z) : result cell :=
  row ← py_get b y; py_get row x.

(** [self.enemy_board[y][x] = c] *)
Definition board_set (b : board) (x y : Z) (c : cell) : result board :=
  row ← py_get b y; row' ← py_set row x c; py_set b y row'.

(** [list.pop()] on a non-empty list: the last element and the rest. *)
Definition list_pop {A} (l : list A) : option (A * list A) :=
  match rev l with
  | [] => None
  | a :: r => Some (a, rev r)
  end.

(** [range(n)] *)
Definition range (n : Z) : list Z := map Z.of_nat (seq 0 (Z.to_nat n)).

Definition coord := (Z * Z)%type.

Definition coord_eqb (p q : coord) : bool :=
  (fst p =? fst q) && (snd p =? snd q).

(** [p in s] for a Python set or list of pairs *)
Definition mem (p : coord) (s : list coord) : bool := existsb (coord_eqb p) s.

(** [0 <= nx < self.cols and 0 <= ny < self.rows] *)
Definition in_bounds (rows cols nx ny : Z) : bool :=
  (0 <=? nx) && (nx <? cols) && (0 <=? ny) && (ny <? rows).

(** ** The tracker state *)

Record Strategy := mkStrategy {
  rows : Z;
  cols : Z;
  ships_dict : list (Z * Z);
  enemy_board : board;
  hit_stack : list coord
}.

(** [self.directions = [(0, 1), (1, 0), (0, -1), (-1, 0)]], as [(dx, dy)]. *)
Definition directions : list coord := [(0, 1); (1, 0); (0, -1); (-1, 0)].

(** [Strategy.__init__] *)
Definition init (rows cols : Z) (ships_dict : list (Z * Z)) : Strategy :=
  mkStrategy rows cols ships_dict
    (map (fun _ => map (fun _ => Unknown) (range cols)) (range rows)) [].

Definition set_board (s : Strategy) (b : board) : Strategy :=
  mkStrategy (rows s) (cols s) (ships_dict s) b (hit_stack s).
Definition set_stack (s : Strategy) (st : list coord) : Strategy :=
  mkStrategy (rows s) (cols s) (ships_dict s) (enemy_board s) st.
Definition set_ships (s : Strategy) (d : list (Z * Z)) : Strategy :=
  mkStrategy (rows s) (cols s) d (enemy_board s) (hit_stack s).

(** ** [get_next_attack] *)

(** One pass of the inner loop [for x in range(self.cols)] at row [y],
    returning the first [(x, y)] whose cell satisfies [p]. *)
Fixpoint scan_row (b : board) (p : Z -> Z -> cell -> bool) (y : Z)
    (xs : list Z) : result (option coord) :=
  match xs with
  | [] => Ok None
  | x :: xs' =>
      c ← board_get b x y;
      if p x y c then Ok (Some (x, y)) else scan_row b p y xs'
  end.

(** [for y in range(self.rows): for x in range(self.cols): if p: return x, y] *)
Fixpoint scan_rows (b : board) (p : Z -> Z -> cell -> bool) (ys xs : list Z)
    : result (option coord) :=
  match ys with
  | [] => Ok None
  | y :: ys' =>
      r ← scan_row b p y xs;
      match r with
      | Some xy => Ok (Some xy)
      | None => scan_rows b p ys' xs
      end
  end.

Definition scan (s : Strategy) (p : Z -> Z -> cell -> bool) : result (option coord) :=
  scan_rows (enemy_board s) p (range (rows s)) (range (cols s)).

(** [self.enemy_board[y][x] == '?' and (x + y) % 2 == 0] *)
Definition unknown_even (x y : Z) (c : cell) : bool :=
  cell_eqb c Unknown && ((x + y) mod 2 =? 0).

(** [self.enemy_board[y][x] == '?'] *)
Definition unknown_any (_ _ : Z) (c : cell) : bool := cell_eqb c Unknown.

(** The two grid scans at the end of [get_next_attack]; falling off the end of
    the function returns [None]. *)
Definition hunt (s : Strategy) : result (option coord * Strategy) :=
  r ← scan s unknown_even;
  match r with
  | Some xy => Ok (Some xy, s)
  | None => r' ← scan s unknown_any; Ok (r', s)
  end.

(** [Strategy.get_next_attack]: the returned state is [self] afterwards. *)
Definition get_next_attack (s : Strategy) : result (option coord * Strategy) :=
  match list_pop (hit_stack s) with
  | Some ((x, y), rest) =>
      let s1 := set_stack s rest in
      c ← board_get (enemy_board s1) x y;
      if cell_eqb c Unknown then Ok (Some (x, y), s1) else hunt s1
  | None => hunt s
  end.

(** ** [register_attack] and its helpers *)

(** [Strategy._add_adjacent_targets], over the remaining directions [ds]. *)
Fixpoint add_adjacent_targets (b : board) (rows cols x y : Z) (ds : list coord)
    (stack : list coord) : result (list coord) :=
  match ds with
  | [] => Ok stack
  | (dx, dy) :: ds' =>
      let nx := x + dx in
      let ny := y + dy in
      if in_bounds rows cols nx ny then
        c ← board_get b nx ny;
        add_adjacent_targets b rows cols x y ds'
          (if cell_eqb c Unknown then stack ++ [(nx, ny)] else stack)
      else add_adjacent_targets b rows cols x y ds' stack
  end.

(** [(x + dx, y + dy) for dx, dy in self.directions] *)
Definition neighbours (p : coord) : list coord :=
  map (fun d => (fst p + fst d, snd p + snd d)) directions.

(** The neighbours appended to [to_check] after [(x, y)] was added to
    [ship_tiles] (the inner [for dx, dy in self.directions] loop). *)
Definition new_neighbours (rows cols : Z) (ship_tiles : list coord) (x y : Z)
    : list coord :=
  List.filter (fun p => in_bounds rows cols (fst p) (snd p) && negb (mem p ship_tiles))
    (neighbours (x, y)).

(** The [while to_check:] loop of [_mark_surrounding_impossible].  Python's
    loop needs no fuel; [fuel] bounds the iterations and [FuelExhausted] is
    shown unreachable below ([flood_enough_fuel]). *)
Fixpoint flood (fuel : nat) (b : board) (rows cols : Z)
    (ship_tiles to_check : list coord) : result (list coord) :=
  match fuel with
  | O => Raise FuelExhausted
  | S fuel' =>
      match list_pop to_check with
      | None => Ok ship_tiles
      | Some ((x, y), to_check') =>
          if mem (x, y) ship_tiles then flood fuel' b rows cols ship_tiles to_check'
          else
            c ← board_get b x y;
            if is_hit_or_sunk c then
              let tiles' := (x, y) :: ship_tiles in
              flood fuel' b rows cols tiles' (to_check' ++ new_neighbours rows cols tiles' x y)
            else flood fuel' b rows cols ship_tiles to_check'
      end
  end.

Definition flood_fuel (rows cols : Z) : nat :=
  (5 * (Z.to_nat rows * Z.to_nat cols) + 7)%nat.

(** The ship-tile discovery from [(x, y)]. *)
Definition ship_tiles_of (b : board) (rows cols x y : Z) : result (list coord) :=
  flood (flood_fuel rows cols) b rows cols [] [(x, y)].

(** The inner loop [for dx, dy in self.directions] of the elimination.  The
    [while] body ends in [break], so it runs at most once: it marks the
    immediate neighbour and the update of [nx, ny] before [break] is dead. *)
Fixpoint eliminate_dirs (b : board) (rows cols : Z) (ship_tiles : list coord)
    (sx sy : Z) (ds : list coord) : result board :=
  match ds with
  | [] => Ok b
  | (dx, dy) :: ds' =>
      let nx := sx + dx in
      let ny := sy + dy in
      if in_bounds rows cols nx ny && negb (mem (nx, ny) ship_tiles) then
        b' ← board_set b nx ny Eliminated;
        eliminate_dirs b' rows cols ship_tiles sx sy ds'
      else eliminate_dirs b rows cols ship_tiles sx sy ds'
  end.

(** [for sx, sy in ship_tiles: ...] (all writes are ['X'], so the iteration
    order of the Python set does not matter). *)
Fixpoint eliminate (b : board) (rows cols : Z) (ship_tiles ts : list coord)
    : result board :=
  match ts with
  | [] => Ok b
  | (sx, sy) :: ts' =>
      b' ← eliminate_dirs b rows cols ship_tiles sx sy directions;
      eliminate b' rows cols ship_tiles ts'
  end.

(** [Strategy._mark_surrounding_impossible] *)
Definition mark_surrounding_impossible (b : board) (rows cols x y : Z) : result board :=
  ship_tiles ← ship_tiles_of b rows cols x y;
  eliminate b rows cols ship_tiles ship_tiles.

(** [d[k]] on a dict *)
Fixpoint dict_get (d : list (Z * Z)) (k : Z) : option Z :=
  match d with
  | [] => None
  | (k', v) :: d' => if k' =? k then Some v else dict_get d' k
  end.

(** [d[k] = v] on a key already present (the position is kept). *)
Fixpoint dict_set (d : list (Z * Z)) (k v : Z) : list (Z * Z) :=
  match d with
  | [] => [(k, v)]
  | (k', v') :: d' => if k' =? k then (k', v) :: d' else (k', v') :: dict_set d' k v
  end.

(** [sorted(self.ships_dict.keys())] *)
Definition sorted_keys (d : list (Z * Z)) : list Z := merge_sort Z.le (map fst d).

(** The loop of [Strategy._update_ships_dict] over the remaining keys. *)
Fixpoint update_loop (d : list (Z * Z)) (ks : list Z) : result (list (Z * Z)) :=
  match ks with
  | [] => Ok d
  | k :: ks' =>
      match dict_get d k with
      | None => Raise KeyError
      | Some v => if 0 <? v then Ok (dict_set d k (v - 1)) else update_loop d ks'
      end
  end.

(** [Strategy._update_ships_dict] *)
Definition update_ships_dict (d : list (Z * Z)) : result (list (Z * Z)) :=
  update_loop d (sorted_keys d).

(** [Strategy.register_attack] *)
Definition register_attack (s : Strategy) (x y : Z) (is_hit is_sunk : bool)
    : result Strategy :=
  if is_hit then
    b1 ← board_set (enemy_board s) x y Hit;
    if is_sunk then
      b2 ← board_set b1 x y Sunk;
      d ← update_ships_dict (ships_dict s);
      b3 ← mark_surrounding_impossible b2 (rows s) (cols s) x y;
      Ok (mkStrategy (rows s) (cols s) d b3 (hit_stack s))
    else
      st ← add_adjacent_targets b1 (rows s) (cols s) x y directions (hit_stack s);
      Ok (mkStrategy (rows s) (cols s) (ships_dict s) b1 st)
  else
    b1 ← board_set (enemy_board s) x y Miss;
    Ok (set_board s b1).

(** [Strategy.all_ships_sunk]: [all(count == 0 for count in self.ships_dict.values())] *)
Definition all_ships_sunk (s : Strategy) : bool :=
  forallb (fun kv => snd kv =? 0) (ships_dict s).

(** [Strategy.get_remaining_ships] *)
Definition get_remaining_ships (s : Strategy) : list (Z * Z) := ships_dict s.

(** [Strategy.get_enemy_board] *)
Definition get_enemy_board (s : Strategy) : board := enemy_board s.

(** ** Predicates used in the statements *)

(** The board is [rows x cols], as [__init__] builds it. *)
Definition wf_board (rows cols : Z) (b : board) : Prop :=
  length b = Z.to_nat rows /\ (forall r, In r b -> length r = Z.to_nat cols).

(** Shape invariant of the tracker: the board keeps its shape and every
    entry of the follow-up stack is in bounds. *)
Definition wf (s : Strategy) : Prop :=
  wf_board (rows s) (cols s) (enemy_board s) /\
  (forall p, In p (hit_stack s) -> in_bounds (rows s) (cols s) (fst p) (snd p) = true).

(** The cell at [p] can be read and satisfies [f]. *)
Definition cell_is (b : board) (f : cell -> bool) (p : coord) : bool :=
  match board_get b (fst p) (snd p) with Ok c => f c | Raise _ => false end.

Definition hs_at (b : board) (p : coord) : bool := cell_is b is_hit_or_sunk p.
Definition unknown_at (b : board) (p : coord) : bool := cell_is b (fun c => cell_eqb c Unknown) p.


(** Connected component, under orthogonal adjacency, of the in-bounds cells in
    state [Hit] or [Sunk] of [b], containing [start]. *)
Inductive connected (b : board) (rows cols : Z) (start : coord) : coord -> Prop :=
| conn_start : hs_at b start = true -> connected b rows cols start start
| conn_step p q : connected b rows cols start p -> In q (neighbours p) ->
    in_bounds rows cols (fst q) (snd q) = true -> hs_at b q = true ->
    connected b rows cols start q.

(** [q] is an in-bounds... neighbour of a tile of [ts] outside [ship_tiles]:
    the cells written by the elimination loop. *)
Definition touched (ship_tiles ts : list coord) (q : coord) : bool :=
  existsb (fun t => existsb (coord_eqb q) (neighbours t)) ts && negb (mem q ship_tiles).

(** The board after the two writes of a sink report, [H] then [S]. *)
Definition sunk_board (s : Strategy) (x y : Z) : result board :=
  b1 ← board_set (enemy_board s) x y Hit; board_set b1 x y Sunk.

(** Row-major order on coordinates [(x, y)]. *)
Definition before (p q : coord) : Prop :=
  snd p < snd q \/ (snd p = snd q /\ fst p < fst q).

(** Sum of the fleet-remaining counts. *)
Definition fleet_sum (d : list (Z * Z)) : Z := fold_right (fun kv acc => snd kv + acc) 0 d.

(** [m] is the least identifier with a positive count, [w] its count. *)
Definition least_positive (d : list (Z * Z)) (m w : Z) : Prop :=
  dict_get d m = Some w /\ 0 < w /\
  (forall k v, dict_get d k = Some v -> 0 < v -> m <= k).

(** All in-bounds coordinates, row by row. *)
Definition cells (rows cols : Z) : list coord :=
  flat_map (fun y => map (fun x => (x, y)) (range cols)) (range rows).

(** Number of in-bounds cells still [Unknown] ([?]). *)
Definition count_unknown (s : Strategy) : nat :=
  length (List.filter (unknown_at (enemy_board s)) (cells (rows s) (cols s))).

(** The cell at [(x, y)] can be read and satisfies [p x y]. *)
Definition holds (b : board) (p : Z -> Z -> cell -> bool) (x y : Z) : bool :=
  match board_get b x y with Ok c => p x y c | Raise _ => false end.

(** States reachable from [__init__] through the public operations. *)
Inductive reachable : Strategy -> Prop :=
| reach_init r c d : reachable (init r c d)
| reach_next s o s' : reachable s -> get_next_attack s = Ok (o, s') -> reachable s'
| reach_register s x y h k s' : reachable s -> register_attack s x y h k = Ok s' ->
    reachable s'.

(** Discharges [wf] on a concrete state by evaluation. *)
Ltac solve_wf :=
  split;
  [split;
   [vm_compute; reflexivity
   |intros r Hr; vm_compute in Hr;
    repeat (destruct Hr as [<-|Hr]; [vm_compute; reflexivity|]); contradiction]
  |intros p Hp; vm_compute in Hp;
   repeat (destruct Hp as [<-|Hp]; [vm_compute; reflexivity|]); contradiction].

(** ** Basic lemmas *)

Lemma coord_eqb_spec p q : reflect (p = q) (coord_eqb p q).
Proof.
  destruct p as [a b], q as [c d]; unfold coord_eqb; simpl.
  destruct (Z.eqb_spec a c), (Z.eqb_spec b d); simpl; constructor; congruence.
Qed.

Lemma mem_spec p l : mem p l = true <-> In p l.
Proof.
  unfold mem. rewrite existsb_exists. split.
  - intros [q [Hq He]]. destruct (coord_eqb_spec p q); congruence.
  - intros H. exists p. split; [exact H|]. destruct (coord_eqb_spec p p); congruence.
Qed.

Lemma cell_eqb_spec a b : cell_eqb a b = true <-> a = b.
Proof. destruct a, b; simpl; split; congruence. Qed.

Lemma in_bounds_spec rows cols x y :
  in_bounds rows cols x y = true <-> 0 <= x < cols /\ 0 <= y < rows.
Proof.
  unfold in_bounds. rewrite !andb_true_iff, !Z.leb_le, !Z.ltb_lt. tauto.
Qed.

Lemma py_index_inb len i : 0 <= i < len -> py_index len i = Some (Z.to_nat i).
Proof.
  intros H. unfold py_index.
  rewrite (proj2 (Z.leb_le 0 i)), (proj2 (Z.ltb_lt i len)) by lia. reflexivity.
Qed.

Lemma py_get_inb {A} (l : list A) i :
  0 <= i < Z.of_nat (length l) ->
  exists a, l !! Z.to_nat i = Some a /\ py_get l i = Ok a.
Proof.
  intros H. unfold py_get. rewrite py_index_inb by lia.
  destruct (l !! Z.to_nat i) eqn:E.
  - eauto.
  - apply lookup_ge_None in E. lia.
Qed.

Lemma py_set_inb {A} (l : list A) i a :
  0 <= i < Z.of_nat (length l) -> py_set l i a = Ok (<[Z.to_nat i := a]> l).
Proof. intros H. unfold py_set. rewrite py_index_inb by lia. reflexivity. Qed.

Lemma board_get_lookup rows cols b x y :
  wf_board rows cols b -> in_bounds rows cols x y = true ->
  exists row c, b !! Z.to_nat y = Some row /\ row !! Z.to_nat x = Some c /\
    board_get b x y = Ok c.
Proof.
  intros [Hl Hr] Hb. apply in_bounds_spec in Hb.
  destruct (py_get_inb b y) as [row [Hrow Hg]]; [lia|].
  assert (length row = Z.to_nat cols) as Hlr
    by (apply Hr; eapply list_elem_of_lookup_2 in Hrow; by apply list_elem_of_In).
  destruct (py_get_inb row x) as [c [Hc Hg']]; [lia|].
  exists row, c. unfold board_get. rewrite Hg. simpl. auto.
Qed.

Lemma board_get_inb rows cols b x y :
  wf_board rows cols b -> in_bounds rows cols x y = true ->
  exists c, board_get b x y = Ok c.
Proof.
  intros Hw Hb. destruct (board_get_lookup _ _ _ _ _ Hw Hb) as (? & c & _ & _ & ?). eauto.
Qed.

Lemma In_insert {A} (l : list A) i a r : In r (<[i := a]> l) -> r = a \/ In r l.
Proof.
  intros Hin. apply list_elem_of_In, list_elem_of_lookup_1 in Hin as [j Hj].
  destruct (decide (i = j)) as [<-|Hne].
  - apply list_lookup_insert_Some in Hj. naive_solver.
  - rewrite list_lookup_insert_ne in Hj by done. right.
    apply list_elem_of_In. by eapply list_elem_of_lookup_2.
Qed.

Lemma board_set_spec rows cols b x y c :
  wf_board rows cols b -> in_bounds rows cols x y = true ->
  exists b', board_set b x y c = Ok b' /\ wf_board rows cols b' /\
    (forall x' y', in_bounds rows cols x' y' = true ->
       board_get b' x' y' = if coord_eqb (x', y') (x, y) then Ok c else board_get b x' y').
Proof.
  intros Hw Hb.
  destruct (board_get_lookup _ _ _ _ _ Hw Hb) as (row & c0 & Hrow & Hc0 & _).
  pose proof Hw as [Hl Hr]. pose proof Hb as Hb'. apply in_bounds_spec in Hb'.
  assert (length row = Z.to_nat cols) as Hlr
    by (apply Hr; eapply list_elem_of_lookup_2 in Hrow; by apply list_elem_of_In).
  set (row' := <[Z.to_nat x := c]> row).
  exists (<[Z.to_nat y := row']> b).
  assert (Hset : board_set b x y c = Ok (<[Z.to_nat y := row']> b)).
  { unfold board_set. destruct (py_get_inb b y) as [r [Hr1 Hg]]; [lia|].
    assert (Hrr : Some r = Some row)
      by (etransitivity; [symmetry; exact Hr1 | exact Hrow]).
    injection Hrr as ->. rewrite Hg. simpl.
    rewrite py_set_inb by lia. simpl. rewrite py_set_inb by lia. reflexivity. }
  assert (Hw' : wf_board rows cols (<[Z.to_nat y := row']> b)).
  { split; [by rewrite length_insert|].
    intros r Hin. apply In_insert in Hin as [->|Hin]; [|by apply Hr].
    unfold row'. by rewrite length_insert. }
  split; [exact Hset|]. split; [exact Hw'|].
  intros x' y' Hb2. pose proof Hb2 as Hb2'. apply in_bounds_spec in Hb2'.
  destruct (board_get_lookup _ _ _ _ _ Hw' Hb2) as (row2 & c2 & Hrow2 & Hc2 & ->).
  destruct (board_get_lookup _ _ _ _ _ Hw Hb2) as (row1 & c1 & Hrow1 & Hc1 & ->).
  destruct (decide (y' = y)) as [->|Hy].
  - rewrite list_lookup_insert_eq in Hrow2 by lia. injection Hrow2 as <-.
    rewrite Hrow in Hrow1. injection Hrow1 as <-.
    destruct (decide (x' = x)) as [->|Hx].
    + unfold row' in Hc2. rewrite list_lookup_insert_eq in Hc2 by lia.
      injection Hc2 as <-. destruct (coord_eqb_spec (x, y) (x, y)); congruence.
    + unfold row' in Hc2. rewrite list_lookup_insert_ne in Hc2 by lia.
      rewrite Hc1 in Hc2. injection Hc2 as <-.
      destruct (coord_eqb_spec (x', y) (x, y)); congruence.
  - rewrite list_lookup_insert_ne in Hrow2 by lia.
    rewrite Hrow1 in Hrow2. injection Hrow2 as <-.
    rewrite Hc1 in Hc2. injection Hc2 as <-.
    destruct (coord_eqb_spec (x', y') (x, y)); congruence.
Qed.

(** ** The grid scans *)


Lemma scan_row_spec b p y n : forall a : nat,
  (forall x, Z.of_nat a <= x < Z.of_nat a + Z.of_nat n -> exists c, board_get b x y = Ok c) ->
  (scan_row b p y (map Z.of_nat (seq a n)) = Ok None /\
     forall x, Z.of_nat a <= x < Z.of_nat a + Z.of_nat n -> holds b p x y = false) \/
  (exists x, scan_row b p y (map Z.of_nat (seq a n)) = Ok (Some (x, y)) /\
     Z.of_nat a <= x < Z.of_nat a + Z.of_nat n /\ holds b p x y = true /\
     forall x', Z.of_nat a <= x' < x -> holds b p x' y = false).
Proof.
  induction n as [|n IH]; intros a Hr.
  - left. split; [reflexivity|]. lia.
  - simpl. destruct (Hr (Z.of_nat a)) as [c Hc]; [lia|].
    rewrite Hc. simpl.
    destruct (p (Z.of_nat a) y c) eqn:Hp.
    + right. exists (Z.of_nat a). unfold holds. rewrite Hc.
      repeat split; try lia; auto.
    + destruct (IH (S a)) as [[H1 H2]|[x [H1 [H2 [H3 H4]]]]].
      { intros x Hx. apply Hr. lia. }
      * left. split; [exact H1|]. intros x Hx.
        destruct (decide (x = Z.of_nat a)) as [->|]; [unfold holds; by rewrite Hc|].
        apply H2. lia.
      * right. exists x. repeat split; auto; try lia.
        intros x' Hx'. destruct (decide (x' = Z.of_nat a)) as [->|];
          [unfold holds; by rewrite Hc|].
        apply H4. lia.
Qed.

Lemma scan_rows_spec b p cols n : forall a : nat,
  (forall x y, Z.of_nat a <= y < Z.of_nat a + Z.of_nat n -> 0 <= x < cols ->
     exists c, board_get b x y = Ok c) ->
  (scan_rows b p (map Z.of_nat (seq a n)) (range cols) = Ok None /\
     forall x y, Z.of_nat a <= y < Z.of_nat a + Z.of_nat n -> 0 <= x < cols ->
       holds b p x y = false) \/
  (exists x y, scan_rows b p (map Z.of_nat (seq a n)) (range cols) = Ok (Some (x, y)) /\
     Z.of_nat a <= y < Z.of_nat a + Z.of_nat n /\ 0 <= x < cols /\ holds b p x y = true /\
     forall x' y', Z.of_nat a <= y' -> 0 <= x' < cols -> before (x', y') (x, y) ->
       holds b p x' y' = false).
Proof.
  induction n as [|n IH]; intros a Hr.
  - left. split; [reflexivity|]. lia.
  - simpl. unfold range.
    destruct (scan_row_spec b p (Z.of_nat a) (Z.to_nat cols) 0)
      as [[H1 H2]|[x [H1 [H2 [H3 H4]]]]].
    { intros x Hx. apply Hr; lia. }
    + rewrite H1. simpl.
      destruct (IH (S a)) as [[H5 H6]|[x [y [H5 [H6 [H7 [H8 H9]]]]]]].
      { intros x y Hy Hx. apply Hr; lia. }
      * left. split; [exact H5|]. intros x y Hy Hx.
        destruct (decide (y = Z.of_nat a)) as [->|]; [apply H2; lia|].
        apply H6; lia.
      * right. exists x, y. repeat split; auto; try lia.
        intros x' y' Hy' Hx' Hb.
        destruct (decide (y' = Z.of_nat a)) as [->|]; [apply H2; lia|].
        apply H9; auto; lia.
    + rewrite H1. simpl. right. exists x, (Z.of_nat a).
      repeat split; auto; try lia.
      intros x' y' Hy' Hx' [Hb|[Hb1 Hb2]]; simpl in *; [lia|].
      subst y'. apply H4. lia.
Qed.

Lemma scan_spec s p :
  wf_board (rows s) (cols s) (enemy_board s) ->
  (scan s p = Ok None /\
     forall x y, in_bounds (rows s) (cols s) x y = true -> holds (enemy_board s) p x y = false) \/
  (exists x y, scan s p = Ok (Some (x, y)) /\ in_bounds (rows s) (cols s) x y = true /\
     holds (enemy_board s) p x y = true /\
     forall x' y', in_bounds (rows s) (cols s) x' y' = true -> before (x', y') (x, y) ->
       holds (enemy_board s) p x' y' = false).
Proof.
  intros Hw. unfold scan, range.
  destruct (scan_rows_spec (enemy_board s) p (cols s) (Z.to_nat (rows s)) 0)
    as [[H1 H2]|[x [y [H1 [H2 [H3 [H4 H5]]]]]]].
  { intros x y Hy Hx. apply (board_get_inb (rows s) (cols s)); [exact Hw|].
    apply in_bounds_spec. lia. }
  - left. split; [exact H1|]. intros x y Hb. apply in_bounds_spec in Hb.
    apply H2; lia.
  - right. exists x, y. repeat split; auto.
    + apply in_bounds_spec. lia.
    + intros x' y' Hb Hbef. apply in_bounds_spec in Hb. apply H5; auto; lia.
Qed.

Lemma holds_unknown_even b x y :
  holds b unknown_even x y = true <-> board_get b x y = Ok Unknown /\ (x + y) mod 2 = 0.
Proof.
  unfold holds, unknown_even. destruct (board_get b x y) as [c|e].
  - rewrite andb_true_iff, cell_eqb_spec, Z.eqb_eq. split; [intros [-> ?]; auto|].
    intros [Hc ?]. injection Hc as ->. auto.
  - split; [discriminate|intros [? _]; discriminate].
Qed.

Lemma holds_unknown_any b x y :
  holds b unknown_any x y = true <-> board_get b x y = Ok Unknown.
Proof.
  unfold holds, unknown_any. destruct (board_get b x y) as [c|e].
  - rewrite cell_eqb_spec. split; [intros ->; auto|]. intros Hc. by injection Hc.
  - split; discriminate.
Qed.

(** ** [get_next_attack] *)

Lemma list_pop_Some {A} (l l' : list A) a : list_pop l = Some (a, l') -> l = l' ++ [a].
Proof.
  unfold list_pop. destruct (rev l) as [|a' r] eqn:E; [discriminate|].
  intros H. injection H as <- <-. rewrite <- (rev_involutive l), E. reflexivity.
Qed.

Lemma list_pop_None {A} (l : list A) : list_pop l = None -> l = [].
Proof.
  unfold list_pop. destruct (rev l) eqn:E; [|discriminate].
  intros _. rewrite <- (rev_involutive l), E. reflexivity.
Qed.

(** Either the top of the follow-up stack is still unknown and is returned,
    or [get_next_attack] runs the grid scans on a state with the same board. *)
Lemma get_next_attack_cases s :
  wf s ->
  (exists x y rest, list_pop (hit_stack s) = Some ((x, y), rest) /\
     board_get (enemy_board s) x y = Ok Unknown /\
     get_next_attack s = Ok (Some (x, y), set_stack s rest)) \/
  (exists s1, enemy_board s1 = enemy_board s /\ rows s1 = rows s /\ cols s1 = cols s /\
     (forall rest x y, list_pop (hit_stack s) = Some ((x, y), rest) ->
        board_get (enemy_board s) x y <> Ok Unknown) /\
     get_next_attack s = hunt s1).
Proof.
  intros [Hw Hst]. unfold get_next_attack.
  destruct (list_pop (hit_stack s)) as [[[x y] rest]|] eqn:Hp.
  - assert (Hin : in_bounds (rows s) (cols s) x y = true).
    { apply (Hst (x, y)). rewrite (list_pop_Some _ _ _ Hp). apply in_or_app. simpl; auto. }
    destruct (board_get_inb _ _ _ _ _ Hw Hin) as [c Hc]. simpl. rewrite Hc. simpl.
    destruct (cell_eqb c Unknown) eqn:Hu.
    + apply cell_eqb_spec in Hu. subst c. left. exists x, y, rest. auto.
    + right. exists (set_stack s rest). repeat split; auto.
      intros rest' x' y' Hp'. injection Hp' as <- <- <-. rewrite Hc.
      intros He. injection He as ->. discriminate.
  - right. exists s. repeat split; auto; intros; congruence.
Qed.

Lemma hunt_even s :
  wf_board (rows s) (cols s) (enemy_board s) ->
  (exists x y, in_bounds (rows s) (cols s) x y = true /\
     board_get (enemy_board s) x y = Ok Unknown /\ (x + y) mod 2 = 0) ->
  exists x y, hunt s = Ok (Some (x, y), s) /\ in_bounds (rows s) (cols s) x y = true /\
    board_get (enemy_board s) x y = Ok Unknown /\ (x + y) mod 2 = 0 /\
    forall x' y', in_bounds (rows s) (cols s) x' y' = true -> before (x', y') (x, y) ->
      ~ (board_get (enemy_board s) x' y' = Ok Unknown /\ (x' + y') mod 2 = 0).
Proof.
  intros Hw [x0 [y0 [Hb0 Hu0]]]. unfold hunt.
  destruct (scan_spec s unknown_even Hw) as [[H1 H2]|[x [y [H1 [H2 [H3 H4]]]]]].
  - apply holds_unknown_even in Hu0. rewrite H2 in Hu0 by exact Hb0. discriminate.
  - rewrite H1. simpl. exists x, y. apply holds_unknown_even in H3.
    repeat split; try tauto.
    intros x' y' Hb Hbef Hc. apply holds_unknown_even in Hc. rewrite H4 in Hc; auto.
    discriminate.
Qed.

Lemma hunt_no_even s :
  wf_board (rows s) (cols s) (enemy_board s) ->
  (forall x y, in_bounds (rows s) (cols s) x y = true ->
     board_get (enemy_board s) x y = Ok Unknown -> (x + y) mod 2 <> 0) ->
  (hunt s = Ok (None, s) /\ forall x y, in_bounds (rows s) (cols s) x y = true ->
     board_get (enemy_board s) x y <> Ok Unknown) \/
  (exists x y, hunt s = Ok (Some (x, y), s) /\ in_bounds (rows s) (cols s) x y = true /\
     board_get (enemy_board s) x y = Ok Unknown /\
     forall x' y', in_bounds (rows s) (cols s) x' y' = true -> before (x', y') (x, y) ->
       board_get (enemy_board s) x' y' <> Ok Unknown).
Proof.
  intros Hw Hne. unfold hunt.
  destruct (scan_spec s unknown_even Hw) as [[H1 H2]|[x [y [H1 [H2 [H3 H4]]]]]].
  2:{ apply holds_unknown_even in H3. destruct H3 as [Hu He].
      exfalso. exact (Hne x y H2 Hu He). }
  rewrite H1. simpl.
  destruct (scan_spec s unknown_any Hw) as [[H5 H6]|[x [y [H5 [H6 [H7 H8]]]]]].
  - left. rewrite H5. simpl. split; [reflexivity|].
    intros x y Hb Hu. apply holds_unknown_any in Hu. rewrite H6 in Hu; auto. discriminate.
  - right. rewrite H5. simpl. exists x, y. apply holds_unknown_any in H7.
    repeat split; auto.
    intros x' y' Hb Hbef Hu. apply holds_unknown_any in Hu. rewrite H8 in Hu; auto.
    discriminate.
Qed.

Lemma hunt_unknown s :
  wf_board (rows s) (cols s) (enemy_board s) ->
  (exists x y, in_bounds (rows s) (cols s) x y = true /\
     board_get (enemy_board s) x y = Ok Unknown) ->
  exists x y, hunt s = Ok (Some (x, y), s) /\ in_bounds (rows s) (cols s) x y = true /\
    board_get (enemy_board s) x y = Ok Unknown.
Proof.
  intros Hw [x0 [y0 [Hb0 Hu0]]].
  destruct (scan_spec s unknown_even Hw) as [[H1 H2]|[x [y [H1 [H2 [H3 H4]]]]]].
  - destruct (hunt_no_even s Hw) as [[H5 H6]|[x [y [H5 [H6 [H7 _]]]]]].
    + intros x y Hb Hu He. pose proof (H2 x y Hb) as Hf.
      rewrite <- Bool.not_true_iff_false, holds_unknown_even in Hf. tauto.
    + exfalso. exact (H6 x0 y0 Hb0 Hu0).
    + eauto.
  - apply holds_unknown_even in H3. unfold hunt. rewrite H1. simpl.
    exists x, y. tauto.
Qed.

Lemma hunt_none s :
  wf_board (rows s) (cols s) (enemy_board s) ->
  (forall x y, in_bounds (rows s) (cols s) x y = true ->
     board_get (enemy_board s) x y <> Ok Unknown) ->
  hunt s = Ok (None, s).
Proof.
  intros Hw Hno. destruct (hunt_no_even s Hw) as [[H _]|[x [y [_ [Hb [Hu _]]]]]].
  - intros x y Hb Hu. exfalso. exact (Hno x y Hb Hu).
  - exact H.
  - exfalso. exact (Hno x y Hb Hu).
Qed.

(** ** The shape invariant is preserved *)

Lemma py_get_In {A} (l : list A) i a : py_get l i = Ok a -> In a l.
Proof.
  unfold py_get. destruct (py_index _ i); [|discriminate].
  destruct (l !! n) eqn:E; [|discriminate]. intros H. injection H as <-.
  apply list_elem_of_In. by eapply list_elem_of_lookup_2.
Qed.

Lemma py_set_Ok {A} (l l' : list A) i a :
  py_set l i a = Ok l' -> length l' = length l /\ (forall r, In r l' -> r = a \/ In r l).
Proof.
  unfold py_set. destruct (py_index _ i); [|discriminate].
  intros H. injection H as <-. split; [apply length_insert|]. intros r. apply In_insert.
Qed.

Lemma board_set_wf rows cols b b' x y c :
  wf_board rows cols b -> board_set b x y c = Ok b' -> wf_board rows cols b'.
Proof.
  intros [Hl Hr]. unfold board_set.
  destruct (py_get b y) as [row|] eqn:Hg; [|discriminate]. simpl.
  destruct (py_set row x c) as [row'|] eqn:Hs; [|discriminate]. simpl.
  intros Hs'. apply py_set_Ok in Hs as [Hl1 _]. apply py_set_Ok in Hs' as [Hl2 Hr2].
  split; [lia|]. intros r Hin. apply Hr2 in Hin as [->|Hin]; [|by apply Hr].
  rewrite Hl1. apply Hr. by eapply py_get_In.
Qed.

Lemma eliminate_dirs_wf rows cols T sx sy ds : forall b b',
  wf_board rows cols b -> eliminate_dirs b rows cols T sx sy ds = Ok b' ->
  wf_board rows cols b'.
Proof.
  induction ds as [|[dx dy] ds IH]; intros b b' Hw; simpl.
  - intros H. by injection H as <-.
  - destruct (in_bounds rows cols (sx + dx) (sy + dy) && negb (mem (sx + dx, sy + dy) T)).
    + destruct (board_set b (sx + dx) (sy + dy) Eliminated) as [b1|] eqn:Hs; [|discriminate].
      simpl. apply IH. by eapply board_set_wf.
    + by apply IH.
Qed.

Lemma eliminate_wf rows cols T ts : forall b b',
  wf_board rows cols b -> eliminate b rows cols T ts = Ok b' -> wf_board rows cols b'.
Proof.
  induction ts as [|[sx sy] ts IH]; intros b b' Hw; cbn [eliminate].
  - intros H. by injection H as <-.
  - destruct (eliminate_dirs b rows cols T sx sy directions) as [b1|] eqn:He; [|discriminate].
    simpl. apply IH. by eapply eliminate_dirs_wf.
Qed.

Lemma add_adjacent_targets_in b rows cols x y ds : forall st st',
  add_adjacent_targets b rows cols x y ds st = Ok st' ->
  forall p, In p st' -> In p st \/ in_bounds rows cols (fst p) (snd p) = true.
Proof.
  induction ds as [|[dx dy] ds IH]; intros st st'; simpl.
  - intros H. injection H as <-. auto.
  - destruct (in_bounds rows cols (x + dx) (y + dy)) eqn:Hb.
    + destruct (board_get b (x + dx) (y + dy)) as [c|]; [|discriminate]. simpl.
      intros H p Hp. apply (IH _ _ H) in Hp as [Hp|Hp]; auto.
      destruct (cell_eqb c Unknown); auto.
      apply in_app_or in Hp as [Hp|[<-|[]]]; auto.
    + apply IH.
Qed.

Lemma register_attack_wf s x y h k s' :
  wf s -> register_attack s x y h k = Ok s' -> wf s'.
Proof.
  intros [Hw Hst]. unfold register_attack.
  destruct h.
  - destruct (board_set (enemy_board s) x y Hit) as [b1|] eqn:H1; [|discriminate]. cbn [mbind result_bind].
    pose proof (board_set_wf _ _ _ _ _ _ _ Hw H1) as Hw1.
    destruct k.
    + destruct (board_set b1 x y Sunk) as [b2|] eqn:H2; [|discriminate]. cbn [mbind result_bind].
      pose proof (board_set_wf _ _ _ _ _ _ _ Hw1 H2) as Hw2.
      destruct (update_ships_dict (ships_dict s)) as [d|]; [|discriminate]. cbn [mbind result_bind].
      unfold mark_surrounding_impossible.
      destruct (ship_tiles_of b2 (rows s) (cols s) x y) as [T|]; [|discriminate]. cbn [mbind result_bind].
      destruct (eliminate b2 (rows s) (cols s) T T) as [b3|] eqn:H3; [|discriminate]. cbn [mbind result_bind].
      intros H. injection H as <-. split; [by eapply eliminate_wf|exact Hst].
    + destruct (add_adjacent_targets b1 (rows s) (cols s) x y directions (hit_stack s))
        as [st|] eqn:Ha; [|discriminate]. cbn [mbind result_bind].
      intros H. injection H as <-. split; [exact Hw1|]. cbn [mbind result_bind].
      intros p Hp. apply (add_adjacent_targets_in _ _ _ _ _ _ _ _ Ha) in Hp as [Hp|Hp]; auto.
  - destruct (board_set (enemy_board s) x y Miss) as [b1|] eqn:H1; [|discriminate]. cbn [mbind result_bind].
    intros H. injection H as <-. split; [by eapply board_set_wf|exact Hst].
Qed.

Lemma hunt_state s o s' : hunt s = Ok (o, s') -> s' = s.
Proof.
  unfold hunt. destruct (scan s unknown_even) as [[xy|]|]; simpl; try discriminate.
  - intros H. by injection H.
  - destruct (scan s unknown_any); simpl; [|discriminate]. intros H. by injection H.
Qed.

Lemma get_next_attack_wf s o s' :
  wf s -> get_next_attack s = Ok (o, s') -> wf s'.
Proof.
  intros [Hw Hst]. unfold get_next_attack.
  assert (Hrest : forall rest a, list_pop (hit_stack s) = Some (a, rest) ->
    wf (set_stack s rest)).
  { intros rest a Hp. split; [exact Hw|]. simpl. intros p Hin. apply Hst.
    rewrite (list_pop_Some _ _ _ Hp). apply in_or_app. auto. }
  destruct (list_pop (hit_stack s)) as [[[x y] rest]|] eqn:Hp.
  - simpl. destruct (board_get (enemy_board s) x y) as [c|]; [|discriminate]. simpl.
    destruct (cell_eqb c Unknown).
    + intros H. injection H as _ <-. eapply Hrest; eauto.
    + intros H. apply hunt_state in H as ->. eapply Hrest; eauto.
  - intros H. apply hunt_state in H as ->. split; auto.
Qed.

Lemma init_wf r c d : wf (init r c d).
Proof.
  split; simpl.
  - split.
    + unfold range. by rewrite !length_map, length_seq.
    + intros row Hin. apply in_map_iff in Hin as [? [<- _]].
      unfold range. by rewrite !length_map, length_seq.
  - intros p [].
Qed.

Lemma reachable_wf s : reachable s -> wf s.
Proof.
  induction 1.
  - apply init_wf.
  - by eapply get_next_attack_wf.
  - by eapply register_attack_wf.
Qed.

(** ** Claims about [get_next_attack] *)

(** C6: when every entry of the follow-up stack is stale and an unknown
    parity-even cell exists, [get_next_attack] returns the first unknown
    parity-even cell in row-major order; when no unknown parity-even cell
    exists but an unknown cell does, it returns the first unknown cell in
    row-major order. *)
Theorem next_attack_parity_preference s :
  wf s ->
  (forall p, In p (hit_stack s) -> board_get (enemy_board s) (fst p) (snd p) <> Ok Unknown) ->
  ((exists x y, in_bounds (rows s) (cols s) x y = true /\
      board_get (enemy_board s) x y = Ok Unknown /\ (x + y) mod 2 = 0) ->
   exists x y s', get_next_attack s = Ok (Some (x, y), s') /\
     in_bounds (rows s) (cols s) x y = true /\
     board_get (enemy_board s) x y = Ok Unknown /\ (x + y) mod 2 = 0 /\
     forall x' y', in_bounds (rows s) (cols s) x' y' = true -> before (x', y') (x, y) ->
       ~ (board_get (enemy_board s) x' y' = Ok Unknown /\ (x' + y') mod 2 = 0)) /\
  ((forall x y, in_bounds (rows s) (cols s) x y = true ->
      board_get (enemy_board s) x y = Ok Unknown -> (x + y) mod 2 <> 0) ->
   (exists x y, in_bounds (rows s) (cols s) x y = true /\
      board_get (enemy_board s) x y = Ok Unknown) ->
   exists x y s', get_next_attack s = Ok (Some (x, y), s') /\
     in_bounds (rows s) (cols s) x y = true /\
     board_get (enemy_board s) x y = Ok Unknown /\
     forall x' y', in_bounds (rows s) (cols s) x' y' = true -> before (x', y') (x, y) ->
       board_get (enemy_board s) x' y' <> Ok Unknown).
Proof.
  intros Hwf Hstale. pose proof Hwf as [Hw _].
  destruct (get_next_attack_cases s Hwf)
    as [(x & y & rest & Hp & Hu & _)|(s1 & Hb & Hr & Hc & _ & Hget)].
  { exfalso. apply (Hstale (x, y)); [|exact Hu].
    rewrite (list_pop_Some _ _ _ Hp). apply in_or_app. simpl; auto. }
  rewrite Hget. rewrite <- Hb, <- Hr, <- Hc. rewrite <- Hb, <- Hr, <- Hc in Hw.
  split.
  - intros Hex. destruct (hunt_even s1 Hw Hex) as (x & y & H1 & H2).
    exists x, y, s1. auto.
  - intros Hne [x0 [y0 [Hb0 Hu0]]].
    destruct (hunt_no_even s1 Hw Hne) as [[_ H]|(x & y & H1 & H2)].
    + exfalso. exact (H x0 y0 Hb0 Hu0).
    + exists x, y, s1. auto.
Qed.

(** C7: in every reachable state with an unknown cell, [get_next_attack]
    returns an in-bounds coordinate whose cell is [Unknown] at call time. *)
Theorem next_attack_returns_unknown s :
  reachable s ->
  (exists x y, in_bounds (rows s) (cols s) x y = true /\
     board_get (enemy_board s) x y = Ok Unknown) ->
  exists x y s', get_next_attack s = Ok (Some (x, y), s') /\
    in_bounds (rows s) (cols s) x y = true /\
    board_get (enemy_board s) x y = Ok Unknown.
Proof.
  intros Hr Hex. pose proof (reachable_wf s Hr) as Hwf. pose proof Hwf as [Hw Hst].
  destruct (get_next_attack_cases s Hwf)
    as [(x & y & rest & Hp & Hu & Hget)|(s1 & Hb & Hrw & Hc & _ & Hget)].
  - exists x, y, (set_stack s rest). split; [exact Hget|]. split; [|exact Hu].
    apply (Hst (x, y)). rewrite (list_pop_Some _ _ _ Hp). apply in_or_app. simpl; auto.
  - rewrite Hget. rewrite <- Hb, <- Hrw, <- Hc in Hw, Hex |- *.
    destruct (hunt_unknown s1 Hw Hex) as (x & y & H1 & H2).
    exists x, y, s1. auto.
Qed.

(** C10: with no unknown cell on the grid, [get_next_attack] falls off the
    end of its loops and returns [None] without raising. *)
Theorem next_attack_none_when_exhausted s :
  wf s ->
  (forall x y, in_bounds (rows s) (cols s) x y = true ->
     board_get (enemy_board s) x y <> Ok Unknown) ->
  exists s', get_next_attack s = Ok (None, s').
Proof.
  intros Hwf Hno. pose proof Hwf as [Hw Hst].
  destruct (get_next_attack_cases s Hwf)
    as [(x & y & rest & Hp & Hu & _)|(s1 & Hb & Hrw & Hc & _ & Hget)].
  - exfalso. apply (Hno x y); [|exact Hu].
    apply (Hst (x, y)). rewrite (list_pop_Some _ _ _ Hp). apply in_or_app. simpl; auto.
  - exists s1. rewrite Hget. apply hunt_none.
    + by rewrite Hb, Hrw, Hc.
    + rewrite Hb, Hrw, Hc. exact Hno.
Qed.

(** ** The ship-tile discovery *)

Lemma in_range n i : 0 <= i < n -> In i (range n).
Proof.
  intros H. unfold range. apply in_map_iff. exists (Z.to_nat i).
  split; [lia|]. apply in_seq. lia.
Qed.

Lemma in_cells rows cols x y :
  in_bounds rows cols x y = true -> In (x, y) (cells rows cols).
Proof.
  intros Hb. apply in_bounds_spec in Hb. unfold cells. apply in_flat_map.
  exists y. split; [apply in_range; lia|]. apply in_map_iff. exists x.
  split; [reflexivity|]. apply in_range. lia.
Qed.

Lemma length_flat_map_pairs (xs ys : list Z) :
  length (flat_map (fun y => map (fun x => (x, y)) xs) ys) = (length ys * length xs)%nat.
Proof. induction ys as [|y ys IH]; simpl; [reflexivity|]. rewrite length_app, length_map. lia. Qed.

Lemma length_cells rows cols :
  length (cells rows cols) = (Z.to_nat rows * Z.to_nat cols)%nat.
Proof. unfold cells, range. by rewrite length_flat_map_pairs, !length_map, !length_seq. Qed.

Lemma length_new_neighbours rows cols T x y :
  (length (new_neighbours rows cols T x y) <= 4)%nat.
Proof.
  unfold new_neighbours. etransitivity; [apply List.filter_length_le|].
  unfold neighbours. by rewrite length_map.
Qed.

Lemma in_new_neighbours rows cols T x y n :
  In n (new_neighbours rows cols T x y) <->
  In n (neighbours (x, y)) /\ in_bounds rows cols (fst n) (snd n) = true /\ ~ In n T.
Proof.
  unfold new_neighbours. rewrite List.filter_In, andb_true_iff, negb_true_iff.
  rewrite <- Bool.not_true_iff_false, mem_spec. tauto.
Qed.

Section Flood.
Variables (b : board) (rows cols : Z) (start : coord).
Hypothesis Hwf : wf_board rows cols b.

(** Cells the flood fill may ever visit. *)
Let P (q : coord) : Prop := q = start \/ in_bounds rows cols (fst q) (snd q) = true.
Let D : list coord := start :: cells rows cols.

Hypothesis Hstart : exists c, board_get b (fst start) (snd start) = Ok c.

Lemma P_in_D q : P q -> In q D.
Proof.
  intros [->|Hq]; [left; reflexivity|]. right. destruct q. by apply in_cells.
Qed.

Lemma flood_total fuel : forall tiles todo,
  List.NoDup tiles -> (forall q, In q tiles -> P q) -> (forall q, In q todo -> P q) ->
  (length todo + 5 * (length D - length tiles) < fuel)%nat ->
  exists T, flood fuel b rows cols tiles todo = Ok T.
Proof.
  induction fuel as [|fuel IH]; intros tiles todo Hnd Ht Htd Hm; [lia|].
  cbn [flood]. destruct (list_pop todo) as [[[x y] todo']|] eqn:Hp; [|eauto].
  apply list_pop_Some in Hp. subst todo.
  rewrite length_app in Hm. change (length [(x, y)]) with 1%nat in Hm.
  assert (Htd' : forall q, In q todo' -> P q) by (intros q Hq; apply Htd, in_or_app; auto).
  assert (Hxy : P (x, y)) by (apply Htd, in_or_app; simpl; auto).
  destruct (mem (x, y) tiles) eqn:Hmem.
  { apply IH; auto. lia. }
  assert (Hc : exists c, board_get b x y = Ok c).
  { destruct Hxy as [Hxy|Hxy].
    { destruct Hstart as [c0 Hc0]. rewrite <- Hxy in Hc0. simpl in Hc0. eauto. }
    exact (board_get_inb _ _ _ _ _ Hwf Hxy). }
  destruct Hc as [c Hc]. rewrite Hc. cbn [mbind result_bind].
  destruct (is_hit_or_sunk c).
  - assert (Hnd' : List.NoDup ((x, y) :: tiles)).
    { apply List.NoDup_cons; [|exact Hnd]. rewrite <- mem_spec. by rewrite Hmem. }
    assert (Hlen : (length ((x, y) :: tiles) <= length D)%nat).
    { apply List.NoDup_incl_length; [exact Hnd'|].
      intros q [<-|Hq]; apply P_in_D; auto. }
    change (length ((x, y) :: tiles)) with (S (length tiles)) in Hlen.
    pose proof (length_new_neighbours rows cols ((x, y) :: tiles) x y).
    apply IH; auto.
    + intros q [<-|Hq]; auto.
    + intros q Hq. apply in_app_or in Hq as [Hq|Hq]; auto.
      apply in_new_neighbours in Hq. right. tauto.
    + rewrite length_app. change (length ((x, y) :: tiles)) with (S (length tiles)). lia.
  - apply IH; auto. lia.
Qed.

Lemma flood_sound fuel : forall tiles todo T,
  flood fuel b rows cols tiles todo = Ok T ->
  (forall t, In t tiles -> connected b rows cols start t) ->
  (forall q, In q todo -> hs_at b q = true -> connected b rows cols start q) ->
  (forall t, In t tiles -> forall n, In n (neighbours t) ->
     in_bounds rows cols (fst n) (snd n) = true -> hs_at b n = true ->
     In n tiles \/ In n todo) ->
  (forall t, In t T -> connected b rows cols start t) /\
  (forall t, In t T -> forall n, In n (neighbours t) ->
     in_bounds rows cols (fst n) (snd n) = true -> hs_at b n = true -> In n T) /\
  (forall q, In q tiles \/ (In q todo /\ hs_at b q = true) -> In q T).
Proof.
  induction fuel as [|fuel IH]; intros tiles todo T Hf I1 I2 I3; [discriminate|].
  cbn [flood] in Hf. destruct (list_pop todo) as [[[x y] todo']|] eqn:Hp.
  2:{ apply list_pop_None in Hp. subst todo. injection Hf as <-.
      split; [exact I1|]. split.
      - intros t Ht n Hn Hb Hh. destruct (I3 t Ht n Hn Hb Hh) as [?|[]]; auto.
      - intros q [Hq|[[] _]]. exact Hq. }
  apply list_pop_Some in Hp. subst todo.
  assert (I2' : forall q, In q todo' -> hs_at b q = true -> connected b rows cols start q)
    by (intros q Hq; apply I2, in_or_app; auto).
  destruct (mem (x, y) tiles) eqn:Hmem.
  { apply mem_spec in Hmem.
    destruct (IH _ _ _ Hf I1 I2') as (C1 & C2 & C3).
    - intros t Ht n Hn Hb Hh. destruct (I3 t Ht n Hn Hb Hh) as [?|Hin]; auto.
      apply in_app_or in Hin as [?|[<-|[]]]; auto.
    - split; [exact C1|]. split; [exact C2|].
      intros q [Hq|[Hq Hh]]; apply C3; auto.
      apply in_app_or in Hq as [?|[<-|[]]]; auto. }
  destruct (board_get b x y) as [c|e] eqn:Hc; [|discriminate].
  cbn [mbind result_bind] in Hf.
  assert (Hhs : hs_at b (x, y) = is_hit_or_sunk c) by (unfold hs_at, cell_is; simpl; by rewrite Hc).
  destruct (is_hit_or_sunk c) eqn:Hcs.
  - assert (Cxy : connected b rows cols start (x, y))
      by (apply I2; [apply in_or_app; simpl; auto|exact Hhs]).
    destruct (IH _ _ _ Hf) as (C1 & C2 & C3).
    + intros t [<-|Ht]; auto.
    + intros q Hq Hh. apply in_app_or in Hq as [Hq|Hq]; auto.
      apply in_new_neighbours in Hq as (Hn & Hb & _).
      eapply conn_step; eauto.
    + intros t [<-|Ht] n Hn Hb Hh.
      * destruct (mem n ((x, y) :: tiles)) eqn:Hm.
        -- left. by apply mem_spec.
        -- right. apply in_or_app. right. apply in_new_neighbours.
           split; [exact Hn|]. split; [exact Hb|].
           intros Hin. apply mem_spec in Hin. congruence.
      * destruct (I3 t Ht n Hn Hb Hh) as [?|Hin]; [left; right; auto|].
        apply in_app_or in Hin as [?|[<-|[]]]; [right; apply in_or_app; auto|left; left; auto].
    + split; [exact C1|]. split; [exact C2|].
      intros q [Hq|[Hq Hh]]; apply C3; [left; right; exact Hq|].
      apply in_app_or in Hq as [?|[<-|[]]]; [right; split; auto; apply in_or_app; auto|].
      left. left. reflexivity.
  - destruct (IH _ _ _ Hf I1 I2') as (C1 & C2 & C3).
    + intros t Ht n Hn Hb Hh. destruct (I3 t Ht n Hn Hb Hh) as [?|Hin]; auto.
      apply in_app_or in Hin as [?|[<-|[]]]; auto. congruence.
    + split; [exact C1|]. split; [exact C2|].
      intros q [Hq|[Hq Hh]]; apply C3; auto.
      apply in_app_or in Hq as [?|[<-|[]]]; auto. congruence.
Qed.
End Flood.

Lemma ship_tiles_component b rows cols x y :
  wf_board rows cols b -> (exists c, board_get b x y = Ok c) ->
  exists T, ship_tiles_of b rows cols x y = Ok T /\
    (forall q, In q T <-> connected b rows cols (x, y) q).
Proof.
  intros Hw Hs.
  destruct (flood_total b rows cols (x, y) Hw Hs (flood_fuel rows cols) [] [(x, y)])
    as [T HT].
  - constructor.
  - intros q [].
  - intros q [<-|[]]. left. reflexivity.
  - simpl. rewrite length_cells. unfold flood_fuel. lia.
  - exists T. split; [exact HT|].
    destruct (flood_sound b rows cols (x, y) _ [] [(x, y)] T HT) as (C1 & C2 & C3).
    + intros t [].
    + intros q [<-|[]] Hh. by apply conn_start.
    + intros t [].
    + intros q. split; [apply C1|]. induction 1 as [Hh|p q Hp IHp Hn Hb Hh].
      * apply C3. right. split; [left; reflexivity|exact Hh].
      * eapply C2; eauto.
Qed.

Lemma connected_hs b rows cols st q : connected b rows cols st q -> hs_at b q = true.
Proof. destruct 1; assumption. Qed.

(** Elimination along the directions [ds] of one tile. *)
Lemma eliminate_dirs_spec rows cols T sx sy ds : forall b,
  wf_board rows cols b ->
  exists b', eliminate_dirs b rows cols T sx sy ds = Ok b' /\ wf_board rows cols b' /\
    forall x' y', in_bounds rows cols x' y' = true ->
      board_get b' x' y' =
        if existsb (coord_eqb (x', y')) (map (fun d => (sx + fst d, sy + snd d)) ds)
           && negb (mem (x', y') T)
        then Ok Eliminated else board_get b x' y'.
Proof.
  induction ds as [|[dx dy] ds IH]; intros b Hw; cbn [eliminate_dirs].
  - exists b. auto.
  - destruct (in_bounds rows cols (sx + dx) (sy + dy)) eqn:Hb;
    destruct (mem (sx + dx, sy + dy) T) eqn:Hm; cbn [andb negb].
    2:{ destruct (board_set_spec rows cols b (sx + dx) (sy + dy) Eliminated Hw Hb)
          as (b1 & Hs & Hw1 & Hg1).
        rewrite Hs. cbn [mbind result_bind].
        destruct (IH b1 Hw1) as (b' & He & Hw' & Hg). exists b'.
        split; [exact He|]. split; [exact Hw'|].
        intros x' y' Hb'. rewrite Hg by exact Hb'. rewrite Hg1 by exact Hb'.
        cbn [map existsb fst snd].
        destruct (coord_eqb_spec (x', y') (sx + dx, sy + dy)) as [He'|He'];
          cbn [orb].
        - rewrite He', Hm. simpl. destruct (existsb _ _); reflexivity.
        - reflexivity. }
    all: destruct (IH b Hw) as (b' & He & Hw' & Hg); exists b';
      split; [exact He|]; split; [exact Hw'|];
      intros x' y' Hb'; rewrite Hg by exact Hb'; cbn [map existsb fst snd];
      destruct (coord_eqb_spec (x', y') (sx + dx, sy + dy)) as [He'|He']; cbn [orb];
      try reflexivity.
    + rewrite He', Hm. simpl. by rewrite andb_false_r.
    + injection He' as -> ->. congruence.
    + injection He' as -> ->. congruence.
Qed.

Lemma eliminate_spec rows cols T ts : forall b,
  wf_board rows cols b ->
  exists b', eliminate b rows cols T ts = Ok b' /\ wf_board rows cols b' /\
    forall x' y', in_bounds rows cols x' y' = true ->
      board_get b' x' y' =
        if touched T ts (x', y') then Ok Eliminated else board_get b x' y'.
Proof.
  induction ts as [|[sx sy] ts IH]; intros b Hw; cbn [eliminate].
  - exists b. auto.
  - destruct (eliminate_dirs_spec rows cols T sx sy directions b Hw) as (b1 & H1 & Hw1 & Hg1).
    rewrite H1. cbn [mbind result_bind].
    destruct (IH b1 Hw1) as (b' & He & Hw' & Hg). exists b'.
    split; [exact He|]. split; [exact Hw'|].
    intros x' y' Hb. rewrite Hg by exact Hb. rewrite Hg1 by exact Hb.
    unfold touched. cbn [existsb].
    change (map (fun d => (sx + fst d, sy + snd d)) directions) with (neighbours (sx, sy)).
    destruct (existsb (coord_eqb (x', y')) (neighbours (sx, sy)));
    destruct (existsb (fun t => existsb (coord_eqb (x', y')) (neighbours t)) ts);
    destruct (mem (x', y') T); reflexivity.
Qed.

(** ** The fleet bookkeeping *)

Lemma dict_get_set_eq d k v : dict_get (dict_set d k v) k = Some v.
Proof.
  induction d as [|[k' v'] d IH]; simpl; [by rewrite Z.eqb_refl|].
  destruct (Z.eqb_spec k' k); simpl.
  - subst. by rewrite Z.eqb_refl.
  - rewrite (proj2 (Z.eqb_neq k' k)) by done. exact IH.
Qed.

Lemma dict_get_set_ne d k k' v : k <> k' -> dict_get (dict_set d k v) k' = dict_get d k'.
Proof.
  intros Hne. induction d as [|[k1 v1] d IH]; simpl.
  - by rewrite (proj2 (Z.eqb_neq k k')).
  - destruct (Z.eqb_spec k1 k); simpl.
    + subst. by rewrite (proj2 (Z.eqb_neq k k')).
    + destruct (k1 =? k'); [reflexivity|exact IH].
Qed.

Lemma fleet_sum_set d k v w :
  dict_get d k = Some w -> fleet_sum (dict_set d k v) = fleet_sum d - w + v.
Proof.
  induction d as [|[k1 v1] d IH]; simpl; [discriminate|].
  destruct (k1 =? k); simpl.
  - intros H. injection H as <-. lia.
  - intros H. rewrite (IH H). lia.
Qed.

Lemma dict_get_keys d k : In k (map fst d) -> exists v, dict_get d k = Some v.
Proof.
  induction d as [|[k1 v1] d IH]; simpl; [intros []|].
  intros [->|Hin]; [rewrite Z.eqb_refl; eauto|].
  destruct (k1 =? k); eauto.
Qed.

Lemma dict_get_in_keys d k v : dict_get d k = Some v -> In k (map fst d).
Proof.
  induction d as [|[k1 v1] d IH]; simpl; [discriminate|].
  destruct (Z.eqb_spec k1 k); auto.
Qed.

Lemma update_loop_spec d ks :
  (forall k, In k ks -> exists v, dict_get d k = Some v) ->
  StronglySorted Z.le ks ->
  ((forall k v, In k ks -> dict_get d k = Some v -> v <= 0) -> update_loop d ks = Ok d) /\
  (forall k0 v0, In k0 ks -> dict_get d k0 = Some v0 -> 0 < v0 ->
     exists m w, update_loop d ks = Ok (dict_set d m (w - 1)) /\
       dict_get d m = Some w /\ 0 < w /\
       forall k v, In k ks -> dict_get d k = Some v -> 0 < v -> m <= k).
Proof.
  induction ks as [|k ks IH]; intros Hk Hs.
  - split; [reflexivity|]. intros ? ? [].
  - apply StronglySorted_inv in Hs as [Hs Hf].
    destruct (IH (fun k' Hk' => Hk k' (or_intror Hk')) Hs) as [IHa IHb].
    destruct (Hk k (or_introl eq_refl)) as [v Hv].
    simpl. rewrite Hv. destruct (Z.ltb_spec 0 v).
    + split.
      * intros Hle. specialize (Hle k v (or_introl eq_refl) Hv). lia.
      * intros _ _ _ _ _. exists k, v. repeat split; auto.
        intros k' v' [<-|Hin] _ _; [lia|]. rewrite List.Forall_forall in Hf. by apply Hf.
    + split.
      * intros Hle. apply IHa. intros k' v' Hin. apply Hle. right. exact Hin.
      * intros k0 v0 [<-|Hin] H0 Hp; [rewrite Hv in H0; injection H0 as <-; lia|].
        destruct (IHb k0 v0 Hin H0 Hp) as (m & w & H1 & H2 & H3 & H4).
        exists m, w. repeat split; auto.
        intros k' v' [<-|Hin'] Hv' Hp'; [rewrite Hv in Hv'; injection Hv' as <-; lia|]. by apply (H4 k' v').
Qed.

Lemma update_ships_dict_spec d :
  ((forall k v, dict_get d k = Some v -> v <= 0) /\ update_ships_dict d = Ok d) \/
  (exists m w, least_positive d m w /\ update_ships_dict d = Ok (dict_set d m (w - 1))).
Proof.
  unfold update_ships_dict.
  assert (Hperm : forall k, In k (sorted_keys d) <-> In k (map fst d)).
  { intros k. unfold sorted_keys. split; apply Permutation_in;
      [|symmetry]; apply merge_sort_Permutation. }
  destruct (update_loop_spec d (sorted_keys d)) as [Ha Hb].
  { intros k Hin. apply dict_get_keys, Hperm, Hin. }
  { unfold sorted_keys. apply StronglySorted_merge_sort; [intros ? ? ? ? ?; lia|intros ? ?; lia]. }
  destruct (existsb (fun k => match dict_get d k with Some v => 0 <? v | None => false end)
              (sorted_keys d)) eqn:E.
  - right. apply existsb_exists in E as [k0 [Hin E]].
    destruct (dict_get d k0) as [v0|] eqn:Hv0; [|discriminate]. apply Z.ltb_lt in E.
    destruct (Hb k0 v0 Hin Hv0 E) as (m & w & H1 & H2 & H3 & H4).
    exists m, w. split; [|exact H1]. repeat split; auto.
    intros k v Hv Hp. apply (H4 k v); auto. apply Hperm. by eapply dict_get_in_keys.
  - left. assert (Hle : forall k v, dict_get d k = Some v -> v <= 0).
    { intros k v Hv. destruct (Z.le_gt_cases v 0) as [|Hgt]; [done|].
      assert (existsb (fun k => match dict_get d k with Some v => 0 <? v | None => false end)
                (sorted_keys d) = true) as Ht; [|congruence].
      apply existsb_exists. exists k. split.
      - apply Hperm. by eapply dict_get_in_keys.
      - rewrite Hv. by apply Z.ltb_lt. }
    split; [exact Hle|]. apply Ha. intros k v _. apply Hle.
Qed.

(** ** [register_attack] *)

Lemma add_adjacent_targets_spec b rows cols x y ds : forall st,
  wf_board rows cols b ->
  add_adjacent_targets b rows cols x y ds st =
    Ok (st ++ List.filter (fun n => in_bounds rows cols (fst n) (snd n) && unknown_at b n)
                (map (fun d => (x + fst d, y + snd d)) ds)).
Proof.
  induction ds as [|[dx dy] ds IH]; intros st Hw; cbn [add_adjacent_targets].
  - by rewrite app_nil_r.
  - cbn [map List.filter fst snd].
    destruct (in_bounds rows cols (x + dx) (y + dy)) eqn:Hb; cbn [andb].
    + destruct (board_get_inb _ _ _ _ _ Hw Hb) as [c Hc].
      rewrite Hc. cbn [mbind result_bind]. rewrite IH by exact Hw.
      unfold unknown_at at 2, cell_is. cbn [fst snd]. rewrite Hc.
      destruct (cell_eqb c Unknown); [by rewrite <- app_assoc|reflexivity].
    + by apply IH.
Qed.

Lemma register_ships s x y h k s' :
  register_attack s x y h k = Ok s' ->
  (h && k = true -> update_ships_dict (ships_dict s) = Ok (ships_dict s')) /\
  (h && k = false -> ships_dict s' = ships_dict s).
Proof.
  unfold register_attack. destruct h.
  - destruct (board_set (enemy_board s) x y Hit) as [b1|]; [|discriminate].
    cbn [mbind result_bind]. destruct k.
    + destruct (board_set b1 x y Sunk) as [b2|]; [|discriminate].
      cbn [mbind result_bind].
      destruct (update_ships_dict (ships_dict s)) as [d|]; [|discriminate].
      cbn [mbind result_bind].
      destruct (mark_surrounding_impossible b2 (rows s) (cols s) x y); [|discriminate].
      cbn [mbind result_bind]. intros H. injection H as <-. simpl. split; [auto|discriminate].
    + destruct (add_adjacent_targets b1 (rows s) (cols s) x y directions (hit_stack s));
        [|discriminate].
      cbn [mbind result_bind]. intros H. injection H as <-. split; [discriminate|auto].
  - destruct (board_set (enemy_board s) x y Miss); [|discriminate].
    cbn [mbind result_bind]. intros H. injection H as <-. split; [discriminate|auto].
Qed.

Lemma connected_in_bounds b rows cols st q :
  in_bounds rows cols (fst st) (snd st) = true ->
  connected b rows cols st q -> in_bounds rows cols (fst q) (snd q) = true.
Proof. intros Hs. destruct 1; assumption. Qed.

(** The whole sink path of [register_attack] at an in-bounds cell. *)
Lemma register_sunk_spec s x y :
  wf s -> in_bounds (rows s) (cols s) x y = true ->
  exists b2 T b3 d,
    sunk_board s x y = Ok b2 /\ ship_tiles_of b2 (rows s) (cols s) x y = Ok T /\
    update_ships_dict (ships_dict s) = Ok d /\
    register_attack s x y true true = Ok (mkStrategy (rows s) (cols s) d b3 (hit_stack s)) /\
    wf_board (rows s) (cols s) b3 /\
    (forall x' y', in_bounds (rows s) (cols s) x' y' = true ->
       board_get b2 x' y' =
         if coord_eqb (x', y') (x, y) then Ok Sunk else board_get (enemy_board s) x' y') /\
    (forall q, In q T <-> connected b2 (rows s) (cols s) (x, y) q) /\
    (forall x' y', in_bounds (rows s) (cols s) x' y' = true ->
       board_get b3 x' y' = if touched T T (x', y') then Ok Eliminated else board_get b2 x' y').
Proof.
  intros [Hw Hst] Hb.
  destruct (board_set_spec _ _ _ x y Hit Hw Hb) as (b1 & H1 & Hw1 & Hg1).
  destruct (board_set_spec _ _ _ x y Sunk Hw1 Hb) as (b2 & H2 & Hw2 & Hg2).
  destruct (ship_tiles_component b2 (rows s) (cols s) x y Hw2) as (T & HT & HTc).
  { by apply (board_get_inb (rows s) (cols s)). }
  destruct (eliminate_spec (rows s) (cols s) T T b2 Hw2) as (b3 & H3 & Hw3 & Hg3).
  destruct (update_ships_dict_spec (ships_dict s)) as [[_ Hd]|(m & w & _ & Hd)].
  all: eexists b2, T, b3, _; split;
    [unfold sunk_board; rewrite H1; cbn [mbind result_bind]; exact H2|];
    split; [exact HT|]; split; [exact Hd|]; split;
    [unfold register_attack; rewrite H1; cbn [mbind result_bind]; rewrite H2;
     cbn [mbind result_bind]; rewrite Hd; cbn [mbind result_bind];
     unfold mark_surrounding_impossible; rewrite HT; cbn [mbind result_bind];
     rewrite H3; reflexivity|];
    split; [exact Hw3|]; split;
    [intros x' y' Hb'; rewrite Hg2, Hg1 by exact Hb';
     destruct (coord_eqb (x', y') (x, y)); reflexivity|];
    split; [exact HTc|exact Hg3].
Qed.

Lemma touched_spec T ts q :
  touched T ts q = true <-> (exists t, In t ts /\ In q (neighbours t)) /\ ~ In q T.
Proof.
  unfold touched. rewrite andb_true_iff, negb_true_iff, <- Bool.not_true_iff_false, mem_spec.
  rewrite existsb_exists. split; intros [[t [Ht He]] Hn]; split; auto; exists t; split; auto.
  - apply existsb_exists in He as [q' [Hq' Heq]].
    destruct (coord_eqb_spec q q'); [subst; exact Hq'|discriminate].
  - apply existsb_exists. exists q. split; [exact He|].
    destruct (coord_eqb_spec q q); congruence.
Qed.

(** A cell written by the elimination is not [Hit] or [Sunk]: such a
    neighbour of the ship set belongs to the ship set. *)
Lemma touched_not_hs b rows cols st T q :
  (forall q, In q T <-> connected b rows cols st q) ->
  in_bounds rows cols (fst q) (snd q) = true ->
  touched T T q = true -> hs_at b q = false.
Proof.
  intros HT Hb Ht. apply touched_spec in Ht as [[t [Ht Hn]] Hq].
  destruct (hs_at b q) eqn:Hh; [|reflexivity]. exfalso. apply Hq, HT.
  apply HT in Ht. eapply conn_step; eauto.
Qed.

Lemma start_in_tiles b rows cols x y T :
  (forall q, In q T <-> connected b rows cols (x, y) q) ->
  board_get b x y = Ok Sunk -> In (x, y) T.
Proof.
  intros HT Hs. apply HT. apply conn_start. unfold hs_at, cell_is. simpl. by rewrite Hs.
Qed.

(** ** Claims about the sink path *)

(** C5: on a sink at an in-bounds cell [(x, y)], the ship-tile discovery
    returns exactly the connected component, under orthogonal adjacency, of
    the [Hit]/[Sunk] cells of the grid (with [(x, y)] just set to [Sunk])
    containing [(x, y)]; the elimination then marks [Eliminated] every
    in-bounds neighbour outside that set of every collected tile. *)
Theorem sink_discovers_connected_component s x y :
  wf s -> in_bounds (rows s) (cols s) x y = true ->
  exists b2 T s', sunk_board s x y = Ok b2 /\
    ship_tiles_of b2 (rows s) (cols s) x y = Ok T /\
    register_attack s x y true true = Ok s' /\
    (forall q, In q T <-> connected b2 (rows s) (cols s) (x, y) q) /\
    (forall t n, In t T -> In n (neighbours t) ->
       in_bounds (rows s) (cols s) (fst n) (snd n) = true -> ~ In n T ->
       board_get (enemy_board s') (fst n) (snd n) = Ok Eliminated).
Proof.
  intros Hwf Hb.
  destruct (register_sunk_spec s x y Hwf Hb)
    as (b2 & T & b3 & d & H2 & HT & Hd & Hreg & Hw3 & Hg2 & HTc & Hg3).
  exists b2, T, (mkStrategy (rows s) (cols s) d b3 (hit_stack s)). split; [exact H2|]. split; [exact HT|]. split; [exact Hreg|].
  split; [exact HTc|].
  intros t [nx ny] Ht Hn Hbn Hnot. cbn [fst snd] in Hbn |- *.
  rewrite Hg3 by exact Hbn.
  replace (touched T T (nx, ny)) with true; [reflexivity|].
  symmetry. apply touched_spec. eauto.
Qed.

(** C4 (amended): after a sink at an in-bounds cell, every in-bounds
    neighbour of a tile of the discovered ship set that lies outside the set
    is [Eliminated]; the reported cell is [Sunk]; every other tile of the set
    keeps the state it had before the call, which is [Hit] or [Sunk]. *)
Theorem sink_perimeter_and_tiles s x y s' :
  wf s -> in_bounds (rows s) (cols s) x y = true ->
  register_attack s x y true true = Ok s' ->
  exists b2 T, sunk_board s x y = Ok b2 /\ ship_tiles_of b2 (rows s) (cols s) x y = Ok T /\
    (forall t n, In t T -> In n (neighbours t) ->
       in_bounds (rows s) (cols s) (fst n) (snd n) = true -> ~ In n T ->
       board_get (enemy_board s') (fst n) (snd n) = Ok Eliminated) /\
    board_get (enemy_board s') x y = Ok Sunk /\
    (forall t, In t T -> t <> (x, y) ->
       board_get (enemy_board s') (fst t) (snd t) = board_get (enemy_board s) (fst t) (snd t) /\
       (board_get (enemy_board s) (fst t) (snd t) = Ok Hit \/
        board_get (enemy_board s) (fst t) (snd t) = Ok Sunk)).
Proof.
  intros Hwf Hb Hr. pose proof Hwf as [Hw _].
  destruct (register_sunk_spec s x y Hwf Hb)
    as (b2 & T & b3 & d & H2 & HT & Hd & Hreg & Hw3 & Hg2 & HTc & Hg3).
  rewrite Hreg in Hr. injection Hr as <-. simpl.
  assert (Hs2 : board_get b2 x y = Ok Sunk).
  { rewrite Hg2 by exact Hb. destruct (coord_eqb_spec (x, y) (x, y)); congruence. }
  pose proof (start_in_tiles _ _ _ _ _ _ HTc Hs2) as Hxy.
  assert (Hkeep : forall t, In t T -> board_get b3 (fst t) (snd t) = board_get b2 (fst t) (snd t)).
  { intros [tx ty] Ht. assert (Htb : in_bounds (rows s) (cols s) tx ty = true)
      by (apply HTc in Ht; exact (connected_in_bounds _ _ _ (x, y) _ Hb Ht)).
    simpl. rewrite Hg3 by exact Htb.
    destruct (touched T T (tx, ty)) eqn:Hto; [|reflexivity].
    apply touched_spec in Hto as [_ Hno]. contradiction. }
  exists b2, T. split; [exact H2|]. split; [exact HT|]. split; [|split].
  - intros t [nx ny] Ht Hn Hbn Hnot. cbn [fst snd] in Hbn |- *. rewrite Hg3 by exact Hbn.
    replace (touched T T (nx, ny)) with true; [reflexivity|].
    symmetry. apply touched_spec. eauto.
  - rewrite <- Hs2. exact (Hkeep (x, y) Hxy).
  - intros [tx ty] Ht Hne. rewrite (Hkeep _ Ht). simpl.
    assert (Htb : in_bounds (rows s) (cols s) tx ty = true)
      by (apply HTc in Ht; exact (connected_in_bounds _ _ _ (x, y) _ Hb Ht)).
    rewrite Hg2 by exact Htb.
    destruct (coord_eqb_spec (tx, ty) (x, y)) as [|_]; [contradiction|].
    split; [reflexivity|].
    apply HTc, connected_hs in Ht. unfold hs_at, cell_is in Ht. simpl in Ht.
    rewrite Hg2 in Ht by exact Htb.
    destruct (coord_eqb_spec (tx, ty) (x, y)) as [|_]; [contradiction|].
    destruct (board_get (enemy_board s) tx ty) as [[]|]; try discriminate; auto.
Qed.

(** C3 (amended): after a sink at an in-bounds cell, a cell in state
    [Eliminated] was [Unknown], [Miss] or [Eliminated] before the call, and a
    cell other than the reported one that was [Hit] or [Sunk] keeps its
    state: the elimination never overwrites [Hit] or [Sunk] cells.  It does
    not check for [Unknown] either: a [Miss] cell, other than the reported
    one, orthogonally adjacent to a tile of the discovered ship set (the
    connected [Hit]/[Sunk] component of the reported cell) becomes
    [Eliminated]. *)
Theorem elimination_spares_hit_and_sunk s x y s' :
  wf s -> in_bounds (rows s) (cols s) x y = true ->
  register_attack s x y true true = Ok s' ->
  (forall x' y', in_bounds (rows s) (cols s) x' y' = true ->
    (board_get (enemy_board s') x' y' = Ok Eliminated ->
       board_get (enemy_board s) x' y' = Ok Unknown \/
       board_get (enemy_board s) x' y' = Ok Miss \/
       board_get (enemy_board s) x' y' = Ok Eliminated) /\
    ((x', y') <> (x, y) ->
       board_get (enemy_board s) x' y' = Ok Hit \/ board_get (enemy_board s) x' y' = Ok Sunk ->
       board_get (enemy_board s') x' y' = board_get (enemy_board s) x' y')) /\
  exists b2 T, sunk_board s x y = Ok b2 /\ ship_tiles_of b2 (rows s) (cols s) x y = Ok T /\
    (forall q, In q T <-> connected b2 (rows s) (cols s) (x, y) q) /\
    forall x' y', in_bounds (rows s) (cols s) x' y' = true -> (x', y') <> (x, y) ->
      board_get (enemy_board s) x' y' = Ok Miss ->
      (exists t, In t T /\ In (x', y') (neighbours t)) ->
      board_get (enemy_board s') x' y' = Ok Eliminated.
Proof.
  intros Hwf Hb Hr. pose proof Hwf as [Hw _].
  destruct (register_sunk_spec s x y Hwf Hb)
    as (b2 & T & b3 & d & H2 & HT & Hd & Hreg & Hw3 & Hg2 & HTc & Hg3).
  rewrite Hreg in Hr. injection Hr as <-. split.
  - intros x' y' Hb'. simpl.
    destruct (board_get_inb _ _ _ _ _ Hw Hb') as [c Hc].
    rewrite Hg3 by exact Hb'.
    destruct (touched T T (x', y')) eqn:Hto.
    + pose proof (touched_not_hs _ _ _ _ _ (x', y') HTc Hb' Hto) as Hnhs.
      unfold hs_at, cell_is in Hnhs. simpl in Hnhs. rewrite Hg2 in Hnhs by exact Hb'.
      destruct (coord_eqb_spec (x', y') (x, y)) as [_|Hne]; [discriminate|].
      rewrite Hc in Hnhs |- *.
      split; [intros _; destruct c; try discriminate; auto|].
      intros _ [Hh|Hh]; injection Hh as ->; discriminate.
    + rewrite Hg2 by exact Hb'. rewrite Hc.
      destruct (coord_eqb_spec (x', y') (x, y)) as [He|Hne].
      * split; [discriminate|]. intros Hne. contradiction.
      * split; [intros Hx; injection Hx as ->; auto|]. auto.
  - exists b2, T. split; [exact H2|]. split; [exact HT|]. split; [exact HTc|].
    intros x' y' Hb' Hne Hm Hadj. cbn [enemy_board]. rewrite Hg3 by exact Hb'.
    assert (Ht : touched T T (x', y') = true).
    { apply touched_spec. split; [exact Hadj|]. intros Hin.
      apply HTc, connected_hs in Hin. unfold hs_at, cell_is in Hin. cbn [fst snd] in Hin.
      rewrite Hg2 in Hin by exact Hb'.
      destruct (coord_eqb_spec (x', y') (x, y)); [contradiction|].
      rewrite Hm in Hin. simpl in Hin. discriminate. }
    rewrite Ht. reflexivity.
Qed.

(** ** Claims about the hit path and the fleet *)

(** C2 (amended): a hit that does not sink sets the cell to [Hit] and
    appends its in-bounds neighbours that are [Unknown] in the order of
    [self.directions] read as [(dx, dy)]: [(x, y+1)], [(x+1, y)], [(x, y-1)],
    [(x-1, y)] (down, right, up, left).  On a fresh 5x5 board a hit at
    [(2, 2)] pushes [(2,3)], [(3,2)], [(2,1)], [(1,2)], and the next
    [get_next_attack] pops [(1, 2)]. *)
Theorem hit_pushes_neighbours_in_direction_order :
  (forall s x y, wf s -> in_bounds (rows s) (cols s) x y = true ->
   exists s', register_attack s x y true false = Ok s' /\
     board_get (enemy_board s') x y = Ok Hit /\
     (forall x' y', in_bounds (rows s) (cols s) x' y' = true -> (x', y') <> (x, y) ->
        board_get (enemy_board s') x' y' = board_get (enemy_board s) x' y') /\
     hit_stack s' = hit_stack s ++
       List.filter (fun n => in_bounds (rows s) (cols s) (fst n) (snd n) &&
                             unknown_at (enemy_board s') n)
         [(x, y + 1); (x + 1, y); (x, y - 1); (x - 1, y)]) /\
  (forall d, exists s1, register_attack (init 5 5 d) 2 2 true false = Ok s1 /\
     hit_stack s1 = [(2, 3); (3, 2); (2, 1); (1, 2)] /\
     get_next_attack s1 = Ok (Some (1, 2), set_stack s1 [(2, 3); (3, 2); (2, 1)])).
Proof.
  split.
  - intros s x y [Hw Hst] Hb.
    destruct (board_set_spec _ _ _ x y Hit Hw Hb) as (b1 & H1 & Hw1 & Hg1).
    exists (mkStrategy (rows s) (cols s) (ships_dict s) b1
      (hit_stack s ++ List.filter (fun n => in_bounds (rows s) (cols s) (fst n) (snd n) &&
                                            unknown_at b1 n)
                        [(x, y + 1); (x + 1, y); (x, y - 1); (x - 1, y)])).
    split; [|split; [|split]].
    + unfold register_attack. rewrite H1. cbn [mbind result_bind].
      rewrite add_adjacent_targets_spec by exact Hw1. cbn [mbind result_bind].
      unfold directions. cbn [map fst snd]. rewrite !Z.add_0_r. reflexivity.
    + simpl. rewrite Hg1 by exact Hb. destruct (coord_eqb_spec (x, y) (x, y)); congruence.
    + intros x' y' Hb' Hne. simpl. rewrite Hg1 by exact Hb'.
      destruct (coord_eqb_spec (x', y') (x, y)); [contradiction|reflexivity].
    + reflexivity.
  - intros d. eexists. split; [reflexivity|]. split; reflexivity.
Qed.

Lemma get_next_attack_ships s o s' :
  get_next_attack s = Ok (o, s') -> ships_dict s' = ships_dict s.
Proof.
  unfold get_next_attack.
  destruct (list_pop (hit_stack s)) as [[[x y] rest]|].
  - cbn [mbind result_bind]. destruct (board_get (enemy_board (set_stack s rest)) x y); [|discriminate].
    cbn [mbind result_bind]. destruct (cell_eqb a Unknown).
    + intros H. injection H as _ <-. reflexivity.
    + intros H. apply hunt_state in H as ->. reflexivity.
  - intros H. apply hunt_state in H as ->. reflexivity.
Qed.

(** C8: a sink report decrements by one exactly the least identifier with a
    positive count (when there is one) and leaves the others; the sum of the
    counts never increases and drops by exactly one per sink report while
    some count is positive; [all_ships_sunk] holds exactly when every count
    is [0]. *)
Theorem fleet_accounting :
  (forall s x y h k s', register_attack s x y h k = Ok s' ->
     (h && k = true -> forall m w, least_positive (ships_dict s) m w ->
        dict_get (ships_dict s') m = Some (w - 1) /\
        (forall k', k' <> m -> dict_get (ships_dict s') k' = dict_get (ships_dict s) k') /\
        fleet_sum (ships_dict s') = fleet_sum (ships_dict s) - 1) /\
     (h && k = true -> (forall k v, dict_get (ships_dict s) k = Some v -> v <= 0) ->
        ships_dict s' = ships_dict s) /\
     (h && k = false -> ships_dict s' = ships_dict s) /\
     fleet_sum (ships_dict s') <= fleet_sum (ships_dict s)) /\
  (forall s o s', get_next_attack s = Ok (o, s') -> ships_dict s' = ships_dict s) /\
  (forall s, all_ships_sunk s = true <-> forall k v, In (k, v) (ships_dict s) -> v = 0).
Proof.
  split; [|split].
  - intros s x y h k s' Hr. destruct (register_ships s x y h k s' Hr) as [Hs Hn].
    destruct (h && k) eqn:Hhk.
    + specialize (Hs eq_refl).
      destruct (update_ships_dict_spec (ships_dict s)) as [[Hle Hd]|(m & w & Hlp & Hd)];
        rewrite Hd in Hs; injection Hs as Hs.
      * rewrite <- Hs. split; [|split; [|split]].
        -- intros _ m w [Hm [Hw _]]. specialize (Hle m w Hm). lia.
        -- intros _ _. reflexivity.
        -- discriminate.
        -- lia.
      * destruct Hlp as (Hm & Hw & Hmin). rewrite <- Hs.
        split; [|split; [|split]]; try discriminate.
        -- intros _ m' w' (Hm' & Hw' & Hmin').
           assert (m' = m) as -> by (pose proof (Hmin m' w' Hm' Hw');
                                       pose proof (Hmin' m w Hm Hw); lia).
           rewrite Hm in Hm'. injection Hm' as <-.
           split; [apply dict_get_set_eq|]. split.
           ++ intros k' Hk'. by apply dict_get_set_ne.
           ++ rewrite (fleet_sum_set _ _ _ _ Hm). lia.
        -- intros _ Hle. specialize (Hle m w Hm). lia.
        -- rewrite (fleet_sum_set _ _ _ _ Hm). lia.
    + rewrite (Hn eq_refl). split; [discriminate|]. split; [discriminate|]. split; auto. lia.
  - apply get_next_attack_ships.
  - intros s. unfold all_ships_sunk. rewrite forallb_forall. split.
    + intros H k v Hin. apply Z.eqb_eq, (H (k, v) Hin).
    + intros H [k v] Hin. apply Z.eqb_eq, (H k v Hin).
Qed.

(** ** Python indexing at the edges of the grid *)

Lemma py_index_ge len i : 0 <= len <= i -> py_index len i = None.
Proof.
  intros H. unfold py_index.
  rewrite (proj2 (Z.ltb_ge i len)) by lia. rewrite andb_false_r.
  rewrite (proj2 (Z.ltb_ge i 0)) by lia. rewrite andb_false_r. reflexivity.
Qed.

Lemma py_index_neg len i : - len <= i < 0 -> py_index len i = py_index len (len + i).
Proof.
  intros H. unfold py_index.
  rewrite (proj2 (Z.leb_gt 0 i)) by lia. cbn [andb].
  rewrite (proj2 (Z.leb_le (- len) i)), (proj2 (Z.ltb_lt i 0)) by lia.
  rewrite (proj2 (Z.leb_le 0 (len + i))), (proj2 (Z.ltb_lt (len + i) len)) by lia.
  reflexivity.
Qed.

Lemma py_index_Some len i :
  - len <= i < len -> exists n, py_index len i = Some n /\ Z.of_nat n < len.
Proof.
  intros H. unfold py_index.
  destruct (Z.leb_spec 0 i), (Z.ltb_spec i len), (Z.leb_spec (- len) i), (Z.ltb_spec i 0);
    cbn [andb]; try lia; eexists; (split; [reflexivity|lia]).
Qed.

Lemma py_index_None len i : ~ (- len <= i < len) -> py_index len i = None.
Proof.
  intros H. unfold py_index.
  destruct (Z.leb_spec 0 i), (Z.ltb_spec i len), (Z.leb_spec (- len) i), (Z.ltb_spec i 0);
    cbn [andb]; try reflexivity; lia.
Qed.

Lemma py_get_ok {A} (l : list A) i :
  - Z.of_nat (length l) <= i < Z.of_nat (length l) -> exists a, py_get l i = Ok a.
Proof.
  intros H. unfold py_get. destruct (py_index_Some _ _ H) as [n [-> Hn]].
  destruct (l !! n) eqn:E; [eauto|]. apply lookup_ge_None in E. lia.
Qed.

Lemma py_set_ok {A} (l : list A) i a :
  - Z.of_nat (length l) <= i < Z.of_nat (length l) -> exists l', py_set l i a = Ok l'.
Proof. intros H. unfold py_set. destruct (py_index_Some _ _ H) as [n [-> _]]. eauto. Qed.

Lemma board_get_ok rows cols b x y :
  wf_board rows cols b -> - cols <= x < cols -> - rows <= y < rows ->
  exists c, board_get b x y = Ok c.
Proof.
  intros [Hl Hr] Hx Hy. unfold board_get.
  destruct (py_get_ok b y) as [row Hrow]; [rewrite Hl; lia|]. rewrite Hrow. cbn [mbind result_bind].
  assert (length row = Z.to_nat cols) as Hlr by (apply Hr; exact (py_get_In _ _ _ Hrow)).
  apply py_get_ok. rewrite Hlr. lia.
Qed.

Lemma board_set_ok rows cols b x y c :
  wf_board rows cols b -> - cols <= x < cols -> - rows <= y < rows ->
  exists b', board_set b x y c = Ok b' /\ wf_board rows cols b'.
Proof.
  intros Hw Hx Hy. pose proof Hw as [Hl Hr].
  assert (Hs : exists b', board_set b x y c = Ok b').
  { unfold board_set.
    destruct (py_get_ok b y) as [row Hrow]; [rewrite Hl; lia|]. rewrite Hrow. cbn [mbind result_bind].
    assert (length row = Z.to_nat cols) as Hlr by (apply Hr; exact (py_get_In _ _ _ Hrow)).
    destruct (py_set_ok row x c) as [row' Hrow']; [rewrite Hlr; lia|]. rewrite Hrow'.
    cbn [mbind result_bind]. apply py_set_ok. rewrite Hl. lia. }
  destruct Hs as [b' Hb']. exists b'. split; [exact Hb'|]. exact (board_set_wf _ _ _ _ _ _ _ Hw Hb').
Qed.

Lemma board_set_out rows cols b x y c :
  wf_board rows cols b -> 0 <= rows -> 0 <= cols ->
  ~ (- cols <= x < cols /\ - rows <= y < rows) -> board_set b x y c = Raise IndexError.
Proof.
  intros [Hl Hr] Hr0 Hc0 Hout. unfold board_set.
  destruct (decide (- rows <= y < rows)) as [Hy|Hy].
  - destruct (py_get_ok b y) as [row Hrow]; [rewrite Hl; lia|]. rewrite Hrow. cbn [mbind result_bind].
    assert (length row = Z.to_nat cols) as Hlr by (apply Hr; exact (py_get_In _ _ _ Hrow)).
    assert (py_set row x c = Raise IndexError) as ->; [|reflexivity].
    unfold py_set. rewrite py_index_None; [reflexivity|]. rewrite Hlr. lia.
  - assert (py_get b y = Raise IndexError) as ->; [|reflexivity].
    unfold py_get. rewrite py_index_None; [reflexivity|]. rewrite Hl. lia.
Qed.

Lemma register_attack_total s x y h k :
  wf s -> - cols s <= x < cols s -> - rows s <= y < rows s ->
  exists s', register_attack s x y h k = Ok s'.
Proof.
  intros [Hw _] Hx Hy. unfold register_attack. destruct h.
  - destruct (board_set_ok _ _ _ x y Hit Hw Hx Hy) as (b1 & H1 & Hw1).
    rewrite H1. cbn [mbind result_bind]. destruct k.
    + destruct (board_set_ok _ _ _ x y Sunk Hw1 Hx Hy) as (b2 & H2 & Hw2).
      rewrite H2. cbn [mbind result_bind].
      destruct (ship_tiles_component b2 (rows s) (cols s) x y Hw2 (board_get_ok _ _ _ x y Hw2 Hx Hy))
        as (T & HT & _).
      destruct (eliminate_spec (rows s) (cols s) T T b2 Hw2) as (b3 & H3 & _).
      destruct (update_ships_dict_spec (ships_dict s)) as [[_ Hd]|(m & w & _ & Hd)];
        rewrite Hd; cbn [mbind result_bind];
        unfold mark_surrounding_impossible; rewrite HT; cbn [mbind result_bind];
        rewrite H3; cbn [mbind result_bind]; eauto.
    + rewrite add_adjacent_targets_spec by exact Hw1. cbn [mbind result_bind]. eauto.
  - destruct (board_set_ok _ _ _ x y Miss Hw Hx Hy) as (b1 & H1 & _).
    rewrite H1. cbn [mbind result_bind]. eauto.
Qed.

Lemma register_attack_out s x y h k :
  wf s -> 0 <= rows s -> 0 <= cols s ->
  ~ (- cols s <= x < cols s /\ - rows s <= y < rows s) ->
  register_attack s x y h k = Raise IndexError.
Proof.
  intros [Hw _] Hr Hc Hout. unfold register_attack.
  destruct h; rewrite (board_set_out _ _ _ _ _ _ Hw Hr Hc Hout); reflexivity.
Qed.

Lemma board_set_wrap rows cols b x y c :
  wf_board rows cols b -> 0 <= y < rows -> - cols <= x < 0 ->
  board_set b x y c = board_set b (cols + x) y c.
Proof.
  intros [Hl Hr] Hy Hx. unfold board_set.
  destruct (py_get_inb b y) as [row [Hrow Hg]]; [rewrite Hl, Z2Nat.id by lia; lia|].
  rewrite Hg. cbn [mbind result_bind].
  assert (length row = Z.to_nat cols) as Hlr
    by (apply Hr; eapply list_elem_of_lookup_2 in Hrow; by apply list_elem_of_In).
  assert (py_index (Z.of_nat (length row)) x = py_index (Z.of_nat (length row)) (cols + x)) as E
    by (rewrite Hlr, Z2Nat.id by lia; apply py_index_neg; lia).
  unfold py_set. rewrite E. reflexivity.
Qed.

Lemma register_nosink s x y h :
  wf s -> in_bounds (rows s) (cols s) x y = true ->
  exists s', register_attack s x y h false = Ok s' /\
    board_get (enemy_board s') x y = Ok (if h then Hit else Miss) /\
    (forall x' y', in_bounds (rows s) (cols s) x' y' = true -> (x', y') <> (x, y) ->
       board_get (enemy_board s') x' y' = board_get (enemy_board s) x' y').
Proof.
  intros [Hw _] Hb. destruct h.
  - destruct (board_set_spec _ _ _ x y Hit Hw Hb) as (b1 & H1 & Hw1 & Hg1).
    eexists. split.
    + unfold register_attack. rewrite H1. cbn [mbind result_bind].
      rewrite add_adjacent_targets_spec by exact Hw1. reflexivity.
    + cbn [enemy_board]. split.
      * rewrite Hg1 by exact Hb. destruct (coord_eqb_spec (x, y) (x, y)); congruence.
      * intros x' y' Hb' Hne. rewrite Hg1 by exact Hb'.
        destruct (coord_eqb_spec (x', y') (x, y)); [contradiction|reflexivity].
  - destruct (board_set_spec _ _ _ x y Miss Hw Hb) as (b1 & H1 & Hw1 & Hg1).
    exists (set_board s b1). split.
    + unfold register_attack. rewrite H1. reflexivity.
    + cbn [enemy_board set_board]. split.
      * rewrite Hg1 by exact Hb. destruct (coord_eqb_spec (x, y) (x, y)); congruence.
      * intros x' y' Hb' Hne. rewrite Hg1 by exact Hb'.
        destruct (coord_eqb_spec (x', y') (x, y)); [contradiction|reflexivity].
Qed.

(** C9 (amended): [register_attack] has no precondition checks; the only
    failure is Python's [IndexError] from indexing the board.  For a
    coordinate with [-cols <= x < cols] and [-rows <= y < rows] (every
    in-bounds cell, and the negative indices Python wraps around) it returns
    normally for every combination of flags; for any other coordinate it
    raises [IndexError].  A report that does not sink overwrites an in-bounds
    cell with [Hit] or [Miss] whatever its previous state, so re-reporting a
    resolved cell is accepted; a sink reported while every count is at most
    [0] returns normally and leaves [ships_dict] unchanged; a miss reported at
    a negative column in [[-cols, 0)] marks column [cols + x]. *)
Theorem register_attack_no_fail_fast :
  (forall s x y h k, wf s -> - cols s <= x < cols s -> - rows s <= y < rows s ->
     exists s', register_attack s x y h k = Ok s') /\
  (forall s x y h k, wf s -> 0 <= rows s -> 0 <= cols s ->
     ~ (- cols s <= x < cols s /\ - rows s <= y < rows s) ->
     register_attack s x y h k = Raise IndexError) /\
  (forall s x y h, wf s -> in_bounds (rows s) (cols s) x y = true ->
     exists s', register_attack s x y h false = Ok s' /\
       board_get (enemy_board s') x y = Ok (if h then Hit else Miss)) /\
  (forall s x y s', (forall k v, dict_get (ships_dict s) k = Some v -> v <= 0) ->
     register_attack s x y true true = Ok s' -> ships_dict s' = ships_dict s) /\
  (forall s x y, wf s -> 0 <= y < rows s -> - cols s <= x < 0 ->
     exists s', register_attack s x y false false = Ok s' /\
       board_get (enemy_board s') (cols s + x) y = Ok Miss).
Proof.
  split; [|split; [|split; [|split]]].
  - exact register_attack_total.
  - exact register_attack_out.
  - intros s x y h Hwf Hb. destruct (register_nosink s x y h Hwf Hb) as (s' & Hr & Hg & _). eauto.
  - intros s x y s' Hle Hr. destruct (register_ships s x y true true s' Hr) as [Hs _].
    specialize (Hs eq_refl).
    destruct (update_ships_dict_spec (ships_dict s)) as [[_ Hd]|(m & w & (Hm & Hw & _) & _)].
    + rewrite Hd in Hs. by injection Hs as ->.
    + specialize (Hle m w Hm). lia.
  - intros s x y [Hw _] Hy Hx.
    assert (Hb : in_bounds (rows s) (cols s) (cols s + x) y = true)
      by (apply in_bounds_spec; lia).
    destruct (board_set_spec _ _ _ (cols s + x) y Miss Hw Hb) as (b1 & H1 & _ & Hg1).
    exists (set_board s b1). split.
    + unfold register_attack. rewrite (board_set_wrap _ _ _ _ _ _ Hw Hy Hx), H1. reflexivity.
    + cbn [enemy_board set_board]. rewrite Hg1 by exact Hb.
      destruct (coord_eqb_spec (cols s + x, y) (cols s + x, y)); congruence.
Qed.

(** ** Evaluations on concrete inputs *)

(** C1 (divergence): [get_next_attack] pops at most one entry of the
    follow-up stack.  On a 1x5 board, after a hit at [(3, 0)] (which pushes
    [(4, 0)] then [(2, 0)]) and a miss at [(2, 0)], the stack still holds the
    unknown cell [(4, 0)] under the stale entry [(2, 0)]; the call pops
    [(2, 0)], finds it resolved, and returns the hunt cell [(0, 0)] instead of
    [(4, 0)], leaving [(4, 0)] on the stack. *)
Theorem next_attack_single_pop :
  exists s, (s1 ← register_attack (init 1 5 [(1, 1)]) 3 0 true false;
             register_attack s1 2 0 false false) = Ok s /\
    hit_stack s = [(4, 0); (2, 0)] /\
    unknown_at (enemy_board s) (4, 0) = true /\
    get_next_attack s = Ok (Some (0, 0), set_stack s [(4, 0)]).
Proof.
  exists (mkStrategy 1 5 [(1, 1)] [[Unknown; Unknown; Miss; Hit; Unknown]] [(4, 0); (2, 0)]).
  split; [vm_compute; reflexivity|]. split; [reflexivity|].
  split; vm_compute; reflexivity.
Qed.

(** Counterexample to C2 as stated: on a fresh 5x5 board a hit at [(2, 2)]
    pushes [(2,3)], [(3,2)], [(2,1)], [(1,2)], not [(3,2)], [(2,3)], [(1,2)],
    [(2,1)]; [(2, 1)] is still unknown, yet the next call returns [(1, 2)]. *)
Lemma hit_push_order_counterexample :
  exists s1, register_attack (init 5 5 [(1, 1)]) 2 2 true false = Ok s1 /\
    hit_stack s1 <> [(3, 2); (2, 3); (1, 2); (2, 1)] /\
    unknown_at (enemy_board s1) (2, 1) = true /\
    get_next_attack s1 = Ok (Some (1, 2), set_stack s1 [(2, 3); (3, 2); (2, 1)]).
Proof.
  eexists. split; [reflexivity|]. split; [vm_compute; discriminate|].
  split; vm_compute; reflexivity.
Qed.

(** Counterexample to C3 as stated: on a 1x2 board, a miss at [(1, 0)]
    followed by a sink at [(0, 0)] overwrites the [Miss] cell with
    [Eliminated]. *)
Lemma elimination_overwrites_miss :
  exists s1 s2, register_attack (init 1 2 [(1, 1)]) 1 0 false false = Ok s1 /\
    board_get (enemy_board s1) 1 0 = Ok Miss /\
    register_attack s1 0 0 true true = Ok s2 /\
    board_get (enemy_board s2) 1 0 = Ok Eliminated.
Proof.
  eexists. eexists. split; [reflexivity|]. split; [vm_compute; reflexivity|].
  split; [reflexivity|]. vm_compute. reflexivity.
Qed.

(** Counterexample to C4 as stated: on a 1x2 board, a hit at [(0, 0)] then a
    sink at [(1, 0)] give the ship set [{(0,0), (1,0)}] and the board
    [[Hit; Sunk]]: the earlier tile [(0, 0)] stays [Hit], and [(1, 0)], an
    unknown neighbour of [(0, 0)] before the call, is not [Eliminated]. *)
Lemma sink_leaves_earlier_hit :
  exists s1 s2 b2 T, register_attack (init 1 2 [(1, 1)]) 0 0 true false = Ok s1 /\
    register_attack s1 1 0 true true = Ok s2 /\
    unknown_at (enemy_board s1) (1, 0) = true /\
    sunk_board s1 1 0 = Ok b2 /\ ship_tiles_of b2 1 2 1 0 = Ok T /\
    In (0, 0) T /\ In (1, 0) T /\
    enemy_board s2 = [[Hit; Sunk]].
Proof.
  do 4 eexists. split; [reflexivity|]. split; [reflexivity|].
  split; [vm_compute; reflexivity|]. split; [reflexivity|]. split; [reflexivity|].
  vm_compute. split; [auto|]. split; [auto|]. reflexivity.
Qed.

(** Counterexample to C9 as stated: re-reporting the resolved cell [(0, 0)]
    as a hit returns normally and overwrites [Miss] with [Hit]; a sink
    reported while the only count is [0] returns normally, leaves the fleet
    as it was and still rewrites the board. *)
Lemma register_attack_accepts_bad_reports :
  exists s1 s2 s3, register_attack (init 1 2 [(1, 1)]) 0 0 false false = Ok s1 /\
    register_attack s1 0 0 true false = Ok s2 /\
    board_get (enemy_board s1) 0 0 = Ok Miss /\
    board_get (enemy_board s2) 0 0 = Ok Hit /\
    register_attack (init 1 2 [(1, 0)]) 0 0 true true = Ok s3 /\
    ships_dict s3 = [(1, 0)] /\ enemy_board s3 = [[Sunk; Eliminated]].
Proof.
  do 3 eexists. split; [reflexivity|]. split; [reflexivity|].
  split; [vm_compute; reflexivity|]. split; [vm_compute; reflexivity|].
  split; [reflexivity|]. split; vm_compute; reflexivity.
Qed.

(** ** Witnesses: the claims' theorems applied to concrete states *)

Lemma hit_pushes_neighbours_in_direction_order_witness :
  wf (init 5 5 [(1, 1)]) /\ in_bounds 5 5 2 2 = true /\
  exists s', register_attack (init 5 5 [(1, 1)]) 2 2 true false = Ok s' /\
    board_get (enemy_board s') 2 2 = Ok Hit /\
    hit_stack s' = [(2, 3); (3, 2); (2, 1); (1, 2)].
Proof.
  assert (Hw : wf (init 5 5 [(1, 1)])) by solve_wf.
  split; [exact Hw|]. split; [reflexivity|].
  destruct (proj1 hit_pushes_neighbours_in_direction_order _ 2 2 Hw eq_refl)
    as (s' & Hr & Hg & _ & Hst).
  exists s'. split; [exact Hr|]. split; [exact Hg|].
  rewrite Hst. clear Hst Hg. revert Hr. vm_compute. intros Hr. injection Hr as <-.
  reflexivity.
Defined.

Lemma elimination_spares_hit_and_sunk_witness :
  wf (mkStrategy 1 2 [(1, 1)] [[Unknown; Miss]] []) /\ in_bounds 1 2 0 0 = true /\
  register_attack (mkStrategy 1 2 [(1, 1)] [[Unknown; Miss]] []) 0 0 true true =
    Ok (mkStrategy 1 2 [(1, 0)] [[Sunk; Eliminated]] []) /\
  (board_get [[Unknown; Miss]] 1 0 = Ok Unknown \/ board_get [[Unknown; Miss]] 1 0 = Ok Miss \/
   board_get [[Unknown; Miss]] 1 0 = Ok Eliminated) /\
  board_get [[Unknown; Miss]] 1 0 = Ok Miss /\
  board_get [[Sunk; Eliminated]] 1 0 = Ok Eliminated.
Proof.
  assert (Hw : wf (mkStrategy 1 2 [(1, 1)] [[Unknown; Miss]] [])) by solve_wf.
  assert (Hr : register_attack (mkStrategy 1 2 [(1, 1)] [[Unknown; Miss]] []) 0 0 true true =
    Ok (mkStrategy 1 2 [(1, 0)] [[Sunk; Eliminated]] [])) by (vm_compute; reflexivity).
  assert (Hm : board_get [[Unknown; Miss]] 1 0 = Ok Miss) by (vm_compute; reflexivity).
  pose proof (elimination_spares_hit_and_sunk _ 0 0 _ Hw eq_refl Hr) as [Hall (b2 & T & Hb2 & _ & HTc & Hmiss)].
  split; [exact Hw|]. split; [reflexivity|]. split; [exact Hr|].
  split; [exact (proj1 (Hall 1 0 eq_refl) (eq_refl (Ok Eliminated)))|]. split; [exact Hm|].
  apply (Hmiss 1 0 eq_refl); [discriminate|exact Hm|].
  exists (0, 0). split; [|vm_compute; auto].
  vm_compute in Hb2. injection Hb2 as <-. apply HTc. apply conn_start. vm_compute. reflexivity.
Defined.

Lemma sink_perimeter_and_tiles_witness :
  wf (mkStrategy 1 2 [(1, 1)] [[Hit; Unknown]] [(1, 0)]) /\ in_bounds 1 2 1 0 = true /\
  register_attack (mkStrategy 1 2 [(1, 1)] [[Hit; Unknown]] [(1, 0)]) 1 0 true true =
    Ok (mkStrategy 1 2 [(1, 0)] [[Hit; Sunk]] [(1, 0)]) /\
  board_get [[Hit; Sunk]] 1 0 = Ok Sunk /\
  exists b2 T, ship_tiles_of b2 1 2 1 0 = Ok T /\
    (forall t, In t T -> t <> (1, 0) ->
       board_get [[Hit; Sunk]] (fst t) (snd t) = board_get [[Hit; Unknown]] (fst t) (snd t)).
Proof.
  assert (Hw : wf (mkStrategy 1 2 [(1, 1)] [[Hit; Unknown]] [(1, 0)])) by solve_wf.
  assert (Hr : register_attack (mkStrategy 1 2 [(1, 1)] [[Hit; Unknown]] [(1, 0)]) 1 0 true true =
    Ok (mkStrategy 1 2 [(1, 0)] [[Hit; Sunk]] [(1, 0)])) by (vm_compute; reflexivity).
  split; [exact Hw|]. split; [reflexivity|]. split; [exact Hr|].
  destruct (sink_perimeter_and_tiles _ 1 0 _ Hw eq_refl Hr)
    as (b2 & T & _ & HT & _ & Hs & Hk).
  split; [exact Hs|]. exists b2, T. split; [exact HT|].
  intros t Ht Hne. exact (proj1 (Hk t Ht Hne)).
Defined.

Lemma sink_discovers_connected_component_witness :
  wf (mkStrategy 1 2 [(1, 1)] [[Hit; Unknown]] [(1, 0)]) /\ in_bounds 1 2 1 0 = true /\
  exists b2 T, sunk_board (mkStrategy 1 2 [(1, 1)] [[Hit; Unknown]] [(1, 0)]) 1 0 = Ok b2 /\
    ship_tiles_of b2 1 2 1 0 = Ok T /\
    (forall q, In q T <-> connected b2 1 2 (1, 0) q).
Proof.
  assert (Hw : wf (mkStrategy 1 2 [(1, 1)] [[Hit; Unknown]] [(1, 0)])) by solve_wf.
  split; [exact Hw|]. split; [reflexivity|].
  destruct (sink_discovers_connected_component _ 1 0 Hw eq_refl)
    as (b2 & T & s' & Hb2 & HT & _ & Hc & _).
  exists b2, T. auto.
Defined.

Lemma next_attack_parity_preference_witness :
  wf (mkStrategy 2 3 [(1, 1)] [[Miss; Unknown; Unknown]; [Unknown; Unknown; Unknown]] [(0, 0)]) /\
  (forall p, In p [(0, 0)] ->
     board_get [[Miss; Unknown; Unknown]; [Unknown; Unknown; Unknown]] (fst p) (snd p) <> Ok Unknown) /\
  (exists x y s', get_next_attack
       (mkStrategy 2 3 [(1, 1)] [[Miss; Unknown; Unknown]; [Unknown; Unknown; Unknown]] [(0, 0)]) =
       Ok (Some (x, y), s') /\ (x + y) mod 2 = 0) /\
  wf (mkStrategy 1 2 [(1, 1)] [[Miss; Unknown]] [(0, 0)]) /\
  (forall x y, in_bounds 1 2 x y = true -> board_get [[Miss; Unknown]] x y = Ok Unknown ->
     (x + y) mod 2 <> 0) /\
  (exists x y s', get_next_attack (mkStrategy 1 2 [(1, 1)] [[Miss; Unknown]] [(0, 0)]) =
       Ok (Some (x, y), s') /\ board_get [[Miss; Unknown]] x y = Ok Unknown).
Proof.
  assert (HwA : wf (mkStrategy 2 3 [(1, 1)] [[Miss; Unknown; Unknown]; [Unknown; Unknown; Unknown]] [(0, 0)]))
    by solve_wf.
  assert (HsA : forall p, In p [(0, 0)] ->
     board_get [[Miss; Unknown; Unknown]; [Unknown; Unknown; Unknown]] (fst p) (snd p) <> Ok Unknown).
  { intros p [<-|[]] H. vm_compute in H. congruence. }
  assert (HeA : exists x y, in_bounds 2 3 x y = true /\
     board_get [[Miss; Unknown; Unknown]; [Unknown; Unknown; Unknown]] x y = Ok Unknown /\
     (x + y) mod 2 = 0).
  { exists 2, 0. split; [reflexivity|]. split; [vm_compute; reflexivity|reflexivity]. }
  assert (HwB : wf (mkStrategy 1 2 [(1, 1)] [[Miss; Unknown]] [(0, 0)])) by solve_wf.
  assert (HsB : forall p, In p [(0, 0)] -> board_get [[Miss; Unknown]] (fst p) (snd p) <> Ok Unknown).
  { intros p [<-|[]] H. vm_compute in H. congruence. }
  assert (HnB : forall x y, in_bounds 1 2 x y = true -> board_get [[Miss; Unknown]] x y = Ok Unknown ->
     (x + y) mod 2 <> 0).
  { intros x y Hb Hu. apply in_bounds_spec in Hb. assert (y = 0) as -> by lia.
    destruct (Z.eq_dec x 0) as [->|Hx]; [vm_compute in Hu; congruence|].
    assert (x = 1) as -> by lia. intros H. vm_compute in H. congruence. }
  assert (HeB : exists x y, in_bounds 1 2 x y = true /\ board_get [[Miss; Unknown]] x y = Ok Unknown).
  { exists 1, 0. split; [reflexivity|vm_compute; reflexivity]. }
  split; [exact HwA|]. split; [exact HsA|]. split.
  { destruct (proj1 (next_attack_parity_preference _ HwA HsA) HeA) as (x & y & s' & Hg & _ & _ & Hp & _).
    exists x, y, s'. auto. }
  split; [exact HwB|]. split; [exact HnB|].
  destruct (proj2 (next_attack_parity_preference _ HwB HsB) HnB HeB) as (x & y & s' & Hg & _ & Hu & _).
  exists x, y, s'. auto.
Defined.

Lemma next_attack_returns_unknown_witness :
  reachable (mkStrategy 1 3 [(1, 1)] [[Miss; Hit; Unknown]] [(2, 0); (0, 0)]) /\
  board_get [[Miss; Hit; Unknown]] 0 0 = Ok Miss /\
  (exists x y, in_bounds 1 3 x y = true /\ board_get [[Miss; Hit; Unknown]] x y = Ok Unknown) /\
  exists x y s', get_next_attack (mkStrategy 1 3 [(1, 1)] [[Miss; Hit; Unknown]] [(2, 0); (0, 0)]) =
    Ok (Some (x, y), s') /\ board_get [[Miss; Hit; Unknown]] x y = Ok Unknown.
Proof.
  assert (Hr : reachable (mkStrategy 1 3 [(1, 1)] [[Miss; Hit; Unknown]] [(2, 0); (0, 0)])).
  { apply (reach_register (mkStrategy 1 3 [(1, 1)] [[Unknown; Hit; Unknown]] [(2, 0); (0, 0)])
             0 0 false false); [|vm_compute; reflexivity].
    apply (reach_register (init 1 3 [(1, 1)]) 1 0 true false); [apply reach_init|].
    vm_compute. reflexivity. }
  assert (He : exists x y, in_bounds 1 3 x y = true /\ board_get [[Miss; Hit; Unknown]] x y = Ok Unknown)
    by (exists 2, 0; split; [reflexivity|vm_compute; reflexivity]).
  split; [exact Hr|]. split; [vm_compute; reflexivity|]. split; [exact He|].
  destruct (next_attack_returns_unknown _ Hr He) as (x & y & s' & Hg & _ & Hu).
  exists x, y, s'. auto.
Defined.

Lemma next_attack_none_when_exhausted_witness :
  wf (mkStrategy 1 2 [(1, 0)] [[Miss; Sunk]] [(0, 0)]) /\
  (forall x y, in_bounds 1 2 x y = true -> board_get [[Miss; Sunk]] x y <> Ok Unknown) /\
  exists s', get_next_attack (mkStrategy 1 2 [(1, 0)] [[Miss; Sunk]] [(0, 0)]) = Ok (None, s').
Proof.
  assert (Hw : wf (mkStrategy 1 2 [(1, 0)] [[Miss; Sunk]] [(0, 0)])) by solve_wf.
  assert (Hn : forall x y, in_bounds 1 2 x y = true -> board_get [[Miss; Sunk]] x y <> Ok Unknown).
  { intros x y Hb. apply in_bounds_spec in Hb.
    assert (y = 0) as -> by lia.
    destruct (Z.eq_dec x 0) as [->|Hx]; [intros H; vm_compute in H; congruence|].
    assert (x = 1) as -> by lia. intros H; vm_compute in H; congruence. }
  split; [exact Hw|]. split; [exact Hn|].
  exact (next_attack_none_when_exhausted _ Hw Hn).
Defined.

Lemma fleet_accounting_witness :
  register_attack (init 1 2 [(1, 1); (2, 1)]) 0 0 true true =
    Ok (mkStrategy 1 2 [(1, 0); (2, 1)] [[Sunk; Eliminated]] []) /\
  least_positive [(1, 1); (2, 1)] 1 1 /\
  fleet_sum [(1, 0); (2, 1)] = fleet_sum [(1, 1); (2, 1)] - 1.
Proof.
  assert (Hr : register_attack (init 1 2 [(1, 1); (2, 1)]) 0 0 true true =
    Ok (mkStrategy 1 2 [(1, 0); (2, 1)] [[Sunk; Eliminated]] [])) by (vm_compute; reflexivity).
  assert (Hl : least_positive [(1, 1); (2, 1)] 1 1).
  { split; [reflexivity|]. split; [lia|].
    intros k v Hk _. cbn [dict_get] in Hk.
    destruct (Z.eqb_spec 1 k); [lia|]. destruct (Z.eqb_spec 2 k); [lia|discriminate]. }
  split; [exact Hr|]. split; [exact Hl|].
  exact (proj2 (proj2 (proj1 (proj1 fleet_accounting _ 0 0 true true _ Hr) eq_refl 1 1 Hl))).
Defined.

Lemma register_attack_no_fail_fast_witness :
  wf (init 2 3 [(1, 1)]) /\
  (exists s', register_attack (init 2 3 [(1, 1)]) (-1) 0 true true = Ok s') /\
  register_attack (init 2 3 [(1, 1)]) 0 (-3) false false = Raise IndexError.
Proof.
  assert (Hw : wf (init 2 3 [(1, 1)])) by solve_wf.
  split; [exact Hw|]. split.
  - apply (proj1 register_attack_no_fail_fast _ (-1) 0 true true Hw); simpl; lia.
  - apply (proj1 (proj2 register_attack_no_fail_fast) _ 0 (-3) false false Hw); simpl; lia.
Defined.

(** ** Further properties of the tracker *)

Lemma list_pop_app {A} (l : list A) a : list_pop (l ++ [a]) = Some (a, l).
Proof. unfold list_pop. rewrite rev_app_distr. simpl. by rewrite rev_involutive. Qed.

Lemma get_next_attack_frame s o s' :
  get_next_attack s = Ok (o, s') ->
  rows s' = rows s /\ cols s' = cols s /\ ships_dict s' = ships_dict s /\
  enemy_board s' = enemy_board s /\ hit_stack s' = removelast (hit_stack s).
Proof.
  unfold get_next_attack. destruct (list_pop (hit_stack s)) as [[[x y] rest]|] eqn:Hp.
  - apply list_pop_Some in Hp. rewrite Hp, removelast_last.
    cbn [mbind result_bind set_stack enemy_board].
    destruct (board_get (enemy_board s) x y) as [c|]; [|discriminate].
    cbn [mbind result_bind]. destruct (cell_eqb c Unknown).
    + intros H. injection H as _ <-. simpl. auto.
    + intros H. apply hunt_state in H as ->. simpl. auto.
  - apply list_pop_None in Hp. rewrite Hp. intros H. apply hunt_state in H as ->. auto.
Qed.

Lemma get_next_attack_safe s :
  wf s ->
  exists o s', get_next_attack s = Ok (o, s') /\
    (forall x y, o = Some (x, y) ->
       in_bounds (rows s) (cols s) x y = true /\ board_get (enemy_board s) x y = Ok Unknown) /\
    (o = None -> forall x y, in_bounds (rows s) (cols s) x y = true ->
       board_get (enemy_board s) x y <> Ok Unknown).
Proof.
  intros Hwf. pose proof Hwf as [Hw Hst].
  destruct (get_next_attack_cases s Hwf) as [(x & y & rest & Hp & Hu & Hg)|(s1 & Hb & Hr & Hc & _ & Hg)].
  - exists (Some (x, y)), (set_stack s rest). split; [exact Hg|]. split; [|discriminate].
    intros x' y' He. injection He as <- <-. split; [|exact Hu].
    apply (Hst (x, y)). rewrite (list_pop_Some _ _ _ Hp). apply in_or_app. right. left. reflexivity.
  - rewrite Hg. assert (Hw1 : wf_board (rows s1) (cols s1) (enemy_board s1)) by (rewrite Hb, Hr, Hc; exact Hw).
    destruct (scan_spec s1 unknown_any Hw1) as [[_ Hno]|(x & y & _ & Hb1 & Hh & _)].
    + exists None, s1. rewrite <- Hr, <- Hc, <- Hb.
      assert (Hn : forall x y, in_bounds (rows s1) (cols s1) x y = true ->
                     board_get (enemy_board s1) x y <> Ok Unknown).
      { intros x y Hb1 Hu. apply holds_unknown_any in Hu. rewrite (Hno x y Hb1) in Hu. discriminate. }
      split; [exact (hunt_none s1 Hw1 Hn)|]. split; [discriminate|]. intros _. exact Hn.
    + apply holds_unknown_any in Hh.
      destruct (hunt_unknown s1 Hw1) as (x' & y' & Hh' & Hb' & Hu'); [eauto|].
      exists (Some (x', y')), s1. rewrite <- Hr, <- Hc, <- Hb.
      split; [exact Hh'|]. split; [|discriminate].
      intros x0 y0 He. injection He as <- <-. auto.
Qed.

Lemma register_shape s x y h k s' :
  register_attack s x y h k = Ok s' -> rows s' = rows s /\ cols s' = cols s.
Proof.
  unfold register_attack. destruct h.
  - destruct (board_set (enemy_board s) x y Hit) as [b1|]; [|discriminate].
    cbn [mbind result_bind]. destruct k.
    + destruct (board_set b1 x y Sunk) as [b2|]; [|discriminate]. cbn [mbind result_bind].
      destruct (update_ships_dict (ships_dict s)) as [d|]; [|discriminate]. cbn [mbind result_bind].
      destruct (mark_surrounding_impossible b2 (rows s) (cols s) x y) as [b3|]; [|discriminate].
      cbn [mbind result_bind]. intros H. injection H as <-. auto.
    + destruct (add_adjacent_targets b1 (rows s) (cols s) x y directions (hit_stack s)) as [st|];
        [|discriminate].
      cbn [mbind result_bind]. intros H. injection H as <-. auto.
  - destruct (board_set (enemy_board s) x y Miss) as [b1|]; [|discriminate].
    cbn [mbind result_bind]. intros H. injection H as <-. auto.
Qed.

Lemma register_resolves s x y h k s' :
  wf s -> in_bounds (rows s) (cols s) x y = true -> register_attack s x y h k = Ok s' ->
  board_get (enemy_board s') x y <> Ok Unknown /\
  (forall x' y', in_bounds (rows s) (cols s) x' y' = true ->
     board_get (enemy_board s') x' y' = Ok Unknown -> board_get (enemy_board s) x' y' = Ok Unknown).
Proof.
  intros Hwf Hb Hr.
  assert (Hns : forall h', register_attack s x y h' false = Ok s' ->
    board_get (enemy_board s') x y <> Ok Unknown /\
    (forall x' y', in_bounds (rows s) (cols s) x' y' = true ->
       board_get (enemy_board s') x' y' = Ok Unknown -> board_get (enemy_board s) x' y' = Ok Unknown)).
  { intros h' Hr'. destruct (register_nosink s x y h' Hwf Hb) as (s'' & Hr'' & Hg & Hf).
    rewrite Hr'' in Hr'. injection Hr' as <-. split; [rewrite Hg; destruct h'; discriminate|].
    intros x' y' Hb' Hu. destruct (coord_eqb_spec (x', y') (x, y)) as [He|Hne].
    - injection He as -> ->. rewrite Hg in Hu. destruct h'; discriminate.
    - rewrite <- (Hf x' y' Hb' Hne). exact Hu. }
  destruct k; [|exact (Hns h Hr)]. destruct h; [|exact (Hns false Hr)].
  destruct (register_sunk_spec s x y Hwf Hb) as (b2 & T & b3 & d & _ & _ & _ & Hr' & _ & Hg2 & _ & Hg3).
  rewrite Hr' in Hr. injection Hr as <-. cbn [enemy_board]. split.
  - rewrite Hg3 by exact Hb. destruct (touched T T (x, y)); [discriminate|].
    rewrite Hg2 by exact Hb. destruct (coord_eqb_spec (x, y) (x, y)); [discriminate|congruence].
  - intros x' y' Hb' Hu. rewrite Hg3 in Hu by exact Hb'. destruct (touched T T (x', y')); [discriminate|].
    rewrite Hg2 in Hu by exact Hb'. destruct (coord_eqb (x', y') (x, y)); [discriminate|exact Hu].
Qed.

Lemma unknown_at_spec b x y : unknown_at b (x, y) = true <-> board_get b x y = Ok Unknown.
Proof.
  unfold unknown_at, cell_is. cbn [fst snd].
  destruct (board_get b x y) as [c|]; [rewrite cell_eqb_spec; split; congruence|split; discriminate].
Qed.

Lemma filter_length_mono {A} (f g : A -> bool) l :
  (forall a, In a l -> f a = true -> g a = true) ->
  (length (List.filter f l) <= length (List.filter g l))%nat.
Proof.
  induction l as [|a l IH]; intros H; simpl; [lia|].
  assert (IH' := IH (fun a' Ha' => H a' (or_intror Ha'))).
  destruct (f a) eqn:Ef.
  - rewrite (H a (or_introl eq_refl) Ef). simpl. lia.
  - destruct (g a); simpl; lia.
Qed.

Lemma filter_length_lt {A} (f g : A -> bool) l :
  (forall a, In a l -> f a = true -> g a = true) ->
  (exists a, In a l /\ g a = true /\ f a = false) ->
  (length (List.filter f l) < length (List.filter g l))%nat.
Proof.
  induction l as [|a l IH]; intros H [a0 [Hin [Hg Hf]]]; [destruct Hin|].
  assert (H' : forall a', In a' l -> f a' = true -> g a' = true) by (intros a' Ha'; apply H; right; exact Ha').
  simpl. destruct Hin as [->|Hin].
  - rewrite Hg, Hf. simpl. pose proof (filter_length_mono f g l H'). lia.
  - assert (IH' := IH H' (ex_intro _ a0 (conj Hin (conj Hg Hf)))).
    destruct (f a) eqn:Ef.
    + rewrite (H a (or_introl eq_refl) Ef). simpl. lia.
    + destruct (g a); simpl; lia.
Qed.

Lemma in_cells_inv rows cols p : In p (cells rows cols) -> in_bounds rows cols (fst p) (snd p) = true.
Proof.
  unfold cells, range. intros Hin. apply in_flat_map in Hin as [y [Hy Hin]].
  apply in_map_iff in Hin as [x [<- Hx]]. apply in_map_iff in Hx as [i [<- Hi]].
  apply in_map_iff in Hy as [j [<- Hj]]. apply in_seq in Hi, Hj.
  apply in_bounds_spec. cbn [fst snd]. lia.
Qed.

Lemma add_adjacent_targets_grow b rows cols x y ds : forall st st',
  add_adjacent_targets b rows cols x y ds st = Ok st' ->
  exists added, st' = st ++ added /\ (length added <= length ds)%nat.
Proof.
  induction ds as [|[dx dy] ds IH]; intros st st'; cbn [add_adjacent_targets].
  - intros H. injection H as <-. exists []. rewrite app_nil_r. split; [reflexivity|simpl; lia].
  - destruct (in_bounds rows cols (x + dx) (y + dy)).
    + destruct (board_get b (x + dx) (y + dy)) as [c|]; [|discriminate]. cbn [mbind result_bind].
      destruct (cell_eqb c Unknown); intros H; apply IH in H as [added [-> Hl]].
      * exists ((x + dx, y + dy) :: added). rewrite <- app_assoc. simpl. split; [reflexivity|lia].
      * exists added. simpl. split; [reflexivity|lia].
    + intros H. apply IH in H as [added [-> Hl]]. exists added. simpl. split; [reflexivity|lia].
Qed.

Lemma dict_set_keys d k v w : dict_get d k = Some w -> map fst (dict_set d k v) = map fst d.
Proof.
  induction d as [|[k1 v1] d IH]; simpl; [discriminate|].
  destruct (Z.eqb_spec k1 k); simpl.
  - intros _. reflexivity.
  - intros H. by rewrite (IH H).
Qed.

Lemma dict_set_In d k v kv : In kv (dict_set d k v) -> kv = (k, v) \/ In kv d.
Proof.
  induction d as [|[k1 v1] d IH]; simpl.
  - intros [<-|[]]. auto.
  - destruct (Z.eqb_spec k1 k) as [->|_]; simpl.
    + intros [<-|Hin]; auto.
    + intros [<-|Hin]; [auto|]. destruct (IH Hin); auto.
Qed.

Lemma fleet_sum_nonneg d : (forall kv, In kv d -> 0 <= snd kv) -> 0 <= fleet_sum d.
Proof.
  induction d as [|[k v] d IH]; intros H; [reflexivity|].
  change (fleet_sum ((k, v) :: d)) with (v + fleet_sum d).
  pose proof (H (k, v) (or_introl eq_refl)). simpl in *.
  assert (0 <= fleet_sum d) by (apply IH; auto). lia.
Qed.

Lemma all_zero_iff_sum d :
  (forall kv, In kv d -> 0 <= snd kv) ->
  forallb (fun kv => snd kv =? 0) d = true <-> fleet_sum d = 0.
Proof.
  induction d as [|[k v] d IH]; intros H; [split; reflexivity|].
  change (fleet_sum ((k, v) :: d)) with (v + fleet_sum d). cbn [forallb snd].
  assert (Hd : forall kv, In kv d -> 0 <= snd kv) by (intros kv Hin; apply H; right; exact Hin).
  rewrite andb_true_iff, Z.eqb_eq, (IH Hd).
  pose proof (H (k, v) (or_introl eq_refl)) as Hv. pose proof (fleet_sum_nonneg d Hd).
  cbn [snd] in Hv. lia.
Qed.

(** X2: every state reachable from [__init__] through [get_next_attack] and
    [register_attack] is well formed: the board has [rows] rows of [cols]
    cells and every entry of the follow-up stack is in bounds. *)
Theorem reachable_states_well_formed s : reachable s -> wf s.
Proof.
  induction 1 as [r c d|s o s' _ IH Hg|s x y h k s' _ IH Hr].
  - apply init_wf.
  - exact (get_next_attack_wf s o s' IH Hg).
  - exact (register_attack_wf s x y h k s' IH Hr).
Qed.

(** X3: on a well-formed state [get_next_attack] never raises; a returned
    coordinate is in bounds and [Unknown], and [None] is returned only when
    no in-bounds cell is [Unknown]. *)
Theorem get_next_attack_never_raises s :
  wf s ->
  exists o s', get_next_attack s = Ok (o, s') /\
    (forall x y, o = Some (x, y) ->
       in_bounds (rows s) (cols s) x y = true /\ board_get (enemy_board s) x y = Ok Unknown) /\
    (o = None -> forall x y, in_bounds (rows s) (cols s) x y = true ->
       board_get (enemy_board s) x y <> Ok Unknown).
Proof. exact (get_next_attack_safe s). Qed.

(** X4: [get_next_attack] changes nothing but the follow-up stack, from which
    it removes exactly the last entry when the stack is non-empty; when that
    last entry is an [Unknown] cell, it is the coordinate returned. *)
Theorem get_next_attack_pops_once s o s' :
  get_next_attack s = Ok (o, s') ->
  rows s' = rows s /\ cols s' = cols s /\ ships_dict s' = ships_dict s /\
  enemy_board s' = enemy_board s /\ hit_stack s' = removelast (hit_stack s) /\
  (forall rest x y, hit_stack s = rest ++ [(x, y)] ->
     board_get (enemy_board s) x y = Ok Unknown -> o = Some (x, y)).
Proof.
  intros Hg. pose proof (get_next_attack_frame s o s' Hg) as (H1 & H2 & H3 & H4 & H5).
  do 5 (split; [assumption|]).
  intros rest x y Hs Hu. unfold get_next_attack in Hg. rewrite Hs, list_pop_app in Hg.
  cbn [mbind result_bind set_stack enemy_board] in Hg. rewrite Hu in Hg.
  cbn [mbind result_bind cell_eqb] in Hg. by injection Hg as <- _.
Qed.

(** X5: a report at an in-bounds cell of a well-formed state leaves that cell
    resolved (not [Unknown]) and never turns a resolved cell back into
    [Unknown]. *)
Theorem register_attack_never_unresolves s x y h k s' :
  wf s -> in_bounds (rows s) (cols s) x y = true -> register_attack s x y h k = Ok s' ->
  board_get (enemy_board s') x y <> Ok Unknown /\
  (forall x' y', in_bounds (rows s) (cols s) x' y' = true ->
     board_get (enemy_board s) x' y' <> Ok Unknown ->
     board_get (enemy_board s') x' y' <> Ok Unknown).
Proof.
  intros Hwf Hb Hr. destruct (register_resolves s x y h k s' Hwf Hb Hr) as [H1 H2].
  split; [exact H1|]. intros x' y' Hb' Hn Hu. exact (Hn (H2 x' y' Hb' Hu)).
Qed.

(** X6: one round of play, [get_next_attack] followed by [register_attack] on
    the returned coordinate, strictly decreases the number of [Unknown] cells
    of a well-formed state; a game therefore ends after at most [rows * cols]
    rounds that return a coordinate. *)
Theorem round_decreases_unknown s x y s1 h k s2 :
  wf s -> get_next_attack s = Ok (Some (x, y), s1) -> register_attack s1 x y h k = Ok s2 ->
  (count_unknown s2 < count_unknown s)%nat.
Proof.
  intros Hwf Hg Hr.
  destruct (get_next_attack_frame s _ s1 Hg) as (Hr1 & Hc1 & _ & Hb1 & _).
  pose proof (get_next_attack_wf s _ s1 Hwf Hg) as Hwf1.
  destruct (get_next_attack_safe s Hwf) as (o & s1' & Hg' & Hsome & _).
  rewrite Hg in Hg'. injection Hg' as <- <-.
  destruct (Hsome x y eq_refl) as [Hb Hu].
  destruct (register_shape s1 x y h k s2 Hr) as [Hr2 Hc2].
  assert (Hb1' : in_bounds (rows s1) (cols s1) x y = true) by (rewrite Hr1, Hc1; exact Hb).
  destruct (register_resolves s1 x y h k s2 Hwf1 Hb1' Hr) as [Hx Hmono].
  unfold count_unknown. rewrite Hr2, Hc2, Hr1, Hc1.
  apply filter_length_lt.
  - intros [x' y'] Hin Hu'. apply unknown_at_spec in Hu'. apply unknown_at_spec.
    rewrite <- Hb1. apply Hmono; [rewrite Hr1, Hc1; exact (in_cells_inv _ _ _ Hin)|exact Hu'].
  - exists (x, y). split; [exact (in_cells _ _ _ _ Hb)|].
    split; [by apply unknown_at_spec|].
    destruct (unknown_at (enemy_board s2) (x, y)) eqn:E; [|reflexivity].
    apply unknown_at_spec in E. contradiction.
Qed.

(** X7: [register_attack] never removes entries from the follow-up stack: a
    hit that does not sink appends at most four entries, and a sink or a miss
    leaves the stack as it was. *)
Theorem register_attack_stack_growth s x y h k s' :
  register_attack s x y h k = Ok s' ->
  exists added, hit_stack s' = hit_stack s ++ added /\ (length added <= 4)%nat /\
    (h && negb k = false -> added = []).
Proof.
  unfold register_attack. destruct h.
  - destruct (board_set (enemy_board s) x y Hit) as [b1|]; [|discriminate].
    cbn [mbind result_bind]. destruct k.
    + destruct (board_set b1 x y Sunk) as [b2|]; [|discriminate]. cbn [mbind result_bind].
      destruct (update_ships_dict (ships_dict s)) as [d|]; [|discriminate]. cbn [mbind result_bind].
      destruct (mark_surrounding_impossible b2 (rows s) (cols s) x y) as [b3|]; [|discriminate].
      cbn [mbind result_bind]. intros H. injection H as <-.
      exists []. rewrite app_nil_r. simpl. split; [reflexivity|]. split; [lia|reflexivity].
    + destruct (add_adjacent_targets b1 (rows s) (cols s) x y directions (hit_stack s)) as [st|] eqn:Ha;
        [|discriminate].
      cbn [mbind result_bind]. intros H. injection H as <-.
      apply add_adjacent_targets_grow in Ha as [added [-> Hl]].
      exists added. simpl. split; [reflexivity|]. split; [exact Hl|discriminate].
  - destruct (board_set (enemy_board s) x y Miss) as [b1|]; [|discriminate].
    cbn [mbind result_bind]. intros H. injection H as <-.
    exists []. rewrite app_nil_r. simpl. split; [reflexivity|]. split; [lia|reflexivity].
Qed.

(** X8: a sink report at an in-bounds cell changes, besides the reported
    cell, only cells orthogonally adjacent to the discovered ship set, each
    of them to [Eliminated]; the follow-up stack is left unchanged. *)
Theorem sink_changes_only_ship_neighbourhood s x y s' :
  wf s -> in_bounds (rows s) (cols s) x y = true -> register_attack s x y true true = Ok s' ->
  hit_stack s' = hit_stack s /\
  exists b2 T, sunk_board s x y = Ok b2 /\ ship_tiles_of b2 (rows s) (cols s) x y = Ok T /\
    forall x' y', in_bounds (rows s) (cols s) x' y' = true -> (x', y') <> (x, y) ->
      board_get (enemy_board s') x' y' <> board_get (enemy_board s) x' y' ->
      board_get (enemy_board s') x' y' = Ok Eliminated /\
      exists t, In t T /\ In (x', y') (neighbours t).
Proof.
  intros Hwf Hb Hr.
  destruct (register_sunk_spec s x y Hwf Hb) as (b2 & T & b3 & d & Hb2 & HT & _ & Hr' & _ & Hg2 & _ & Hg3).
  rewrite Hr' in Hr. injection Hr as <-. cbn [enemy_board hit_stack].
  split; [reflexivity|]. exists b2, T. split; [exact Hb2|]. split; [exact HT|].
  intros x' y' Hb' Hne Hch. rewrite Hg3 in Hch |- * by exact Hb'.
  destruct (touched T T (x', y')) eqn:Ht.
  - split; [reflexivity|]. apply touched_spec in Ht as [[t [Ht Hn]] _]. eauto.
  - exfalso. apply Hch. rewrite Hg2 by exact Hb'.
    destruct (coord_eqb_spec (x', y') (x, y)); [contradiction|reflexivity].
Qed.

(** X9: [register_attack] never adds or removes fleet identifiers, keeps
    their order, and keeps every count non-negative when all counts were
    non-negative before the call. *)
Theorem register_attack_fleet_shape s x y h k s' :
  register_attack s x y h k = Ok s' ->
  map fst (ships_dict s') = map fst (ships_dict s) /\
  ((forall kv, In kv (ships_dict s) -> 0 <= snd kv) ->
   forall kv, In kv (ships_dict s') -> 0 <= snd kv).
Proof.
  intros Hr. destruct (register_ships s x y h k s' Hr) as [Hs Hn].
  destruct (h && k).
  - specialize (Hs eq_refl).
    destruct (update_ships_dict_spec (ships_dict s)) as [[_ Hd]|(m & w & (Hm & Hw & _) & Hd)];
      rewrite Hd in Hs; injection Hs as Hs; rewrite <- Hs.
    + auto.
    + split; [exact (dict_set_keys _ _ _ _ Hm)|].
      intros Hpos kv Hin. destruct (dict_set_In _ _ _ _ Hin) as [->|Hin']; [simpl; lia|auto].
  - rewrite (Hn eq_refl). auto.
Qed.

(** X10: when no count is negative, [all_ships_sunk] holds exactly when the
    counts of the fleet add up to [0]. *)
Theorem all_ships_sunk_iff_sum_zero s :
  (forall kv, In kv (ships_dict s) -> 0 <= snd kv) ->
  all_ships_sunk s = true <-> fleet_sum (ships_dict s) = 0.
Proof. intros H. unfold all_ships_sunk. exact (all_zero_iff_sum _ H). Qed.

(** X11: a report with [is_hit] false at an in-bounds cell sets that cell to
    [Miss] whatever [is_sunk] says, leaves every other cell, the follow-up
    stack and the fleet unchanged. *)
Theorem miss_report_frame s x y k s' :
  wf s -> in_bounds (rows s) (cols s) x y = true -> register_attack s x y false k = Ok s' ->
  board_get (enemy_board s') x y = Ok Miss /\
  (forall x' y', in_bounds (rows s) (cols s) x' y' = true -> (x', y') <> (x, y) ->
     board_get (enemy_board s') x' y' = board_get (enemy_board s) x' y') /\
  hit_stack s' = hit_stack s /\ ships_dict s' = ships_dict s.
Proof.
  intros [Hw _] Hb Hr.
  destruct (board_set_spec _ _ _ x y Miss Hw Hb) as (b1 & H1 & _ & Hg1).
  unfold register_attack in Hr. rewrite H1 in Hr. injection Hr as <-.
  cbn [set_board enemy_board hit_stack ships_dict]. split; [|split; [|split; reflexivity]].
  - rewrite Hg1 by exact Hb. destruct (coord_eqb_spec (x, y) (x, y)); congruence.
  - intros x' y' Hb' Hne. rewrite Hg1 by exact Hb'.
    destruct (coord_eqb_spec (x', y') (x, y)); [contradiction|reflexivity].
Qed.

(** ** Witnesses of the further properties *)

Lemma reachable_states_well_formed_witness :
  reachable (mkStrategy 1 2 [(1, 1)] [[Hit; Unknown]] [(1, 0)]) /\
  wf (mkStrategy 1 2 [(1, 1)] [[Hit; Unknown]] [(1, 0)]).
Proof.
  assert (Hr : reachable (mkStrategy 1 2 [(1, 1)] [[Hit; Unknown]] [(1, 0)])).
  { apply (reach_register (init 1 2 [(1, 1)]) 0 0 true false); [apply reach_init|].
    vm_compute. reflexivity. }
  split; [exact Hr|exact (reachable_states_well_formed _ Hr)].
Defined.

Lemma get_next_attack_never_raises_witness :
  wf (mkStrategy 2 2 [(1, 1)] [[Miss; Unknown]; [Unknown; Unknown]] [(0, 0)]) /\
  exists o s', get_next_attack (mkStrategy 2 2 [(1, 1)] [[Miss; Unknown]; [Unknown; Unknown]] [(0, 0)]) =
    Ok (o, s').
Proof.
  assert (Hw : wf (mkStrategy 2 2 [(1, 1)] [[Miss; Unknown]; [Unknown; Unknown]] [(0, 0)])) by solve_wf.
  split; [exact Hw|].
  destruct (get_next_attack_never_raises _ Hw) as (o & s' & Hg & _). eauto.
Defined.

Lemma get_next_attack_pops_once_witness :
  get_next_attack (mkStrategy 1 2 [(1, 1)] [[Hit; Unknown]] [(1, 0)]) =
    Ok (Some (1, 0), mkStrategy 1 2 [(1, 1)] [[Hit; Unknown]] []) /\
  hit_stack (mkStrategy 1 2 [(1, 1)] [[Hit; Unknown]] []) = removelast [(1, 0)].
Proof.
  assert (Hg : get_next_attack (mkStrategy 1 2 [(1, 1)] [[Hit; Unknown]] [(1, 0)]) =
    Ok (Some (1, 0), mkStrategy 1 2 [(1, 1)] [[Hit; Unknown]] [])) by (vm_compute; reflexivity).
  split; [exact Hg|].
  exact (proj1 (proj2 (proj2 (proj2 (proj2 (get_next_attack_pops_once _ _ _ Hg)))))).
Defined.

Lemma register_attack_never_unresolves_witness :
  wf (init 1 2 [(1, 1)]) /\ in_bounds 1 2 0 0 = true /\
  register_attack (init 1 2 [(1, 1)]) 0 0 true false =
    Ok (mkStrategy 1 2 [(1, 1)] [[Hit; Unknown]] [(1, 0)]) /\
  board_get [[Hit; Unknown]] 0 0 <> Ok Unknown.
Proof.
  assert (Hw : wf (init 1 2 [(1, 1)])) by solve_wf.
  assert (Hr : register_attack (init 1 2 [(1, 1)]) 0 0 true false =
    Ok (mkStrategy 1 2 [(1, 1)] [[Hit; Unknown]] [(1, 0)])) by (vm_compute; reflexivity).
  split; [exact Hw|]. split; [reflexivity|]. split; [exact Hr|].
  exact (proj1 (register_attack_never_unresolves _ 0 0 true false _ Hw eq_refl Hr)).
Defined.

Lemma round_decreases_unknown_witness :
  wf (init 1 2 [(1, 1)]) /\
  get_next_attack (init 1 2 [(1, 1)]) = Ok (Some (0, 0), init 1 2 [(1, 1)]) /\
  register_attack (init 1 2 [(1, 1)]) 0 0 false false =
    Ok (mkStrategy 1 2 [(1, 1)] [[Miss; Unknown]] []) /\
  lt (count_unknown (mkStrategy 1 2 [(1, 1)] [[Miss; Unknown]] [])) (count_unknown (init 1 2 [(1, 1)])).
Proof.
  assert (Hw : wf (init 1 2 [(1, 1)])) by solve_wf.
  assert (Hg : get_next_attack (init 1 2 [(1, 1)]) = Ok (Some (0, 0), init 1 2 [(1, 1)]))
    by (vm_compute; reflexivity).
  assert (Hr : register_attack (init 1 2 [(1, 1)]) 0 0 false false =
    Ok (mkStrategy 1 2 [(1, 1)] [[Miss; Unknown]] [])) by (vm_compute; reflexivity).
  split; [exact Hw|]. split; [exact Hg|]. split; [exact Hr|].
  exact (round_decreases_unknown _ 0 0 _ false false _ Hw Hg Hr).
Defined.

Lemma register_attack_stack_growth_witness :
  register_attack (init 3 3 [(1, 1)]) 1 1 true false =
    Ok (mkStrategy 3 3 [(1, 1)] [[Unknown; Unknown; Unknown]; [Unknown; Hit; Unknown];
                                 [Unknown; Unknown; Unknown]] [(1, 2); (2, 1); (1, 0); (0, 1)]) /\
  exists added : list coord,
    ([(1, 2); (2, 1); (1, 0); (0, 1)] : list coord) = [] ++ added /\ (length added <= 4)%nat.
Proof.
  assert (Hr : register_attack (init 3 3 [(1, 1)]) 1 1 true false =
    Ok (mkStrategy 3 3 [(1, 1)] [[Unknown; Unknown; Unknown]; [Unknown; Hit; Unknown];
                                 [Unknown; Unknown; Unknown]] [(1, 2); (2, 1); (1, 0); (0, 1)]))
    by (vm_compute; reflexivity).
  split; [exact Hr|].
  destruct (register_attack_stack_growth _ 1 1 true false _ Hr) as (added & Hs & Hl & _).
  exists added. auto.
Defined.

Lemma sink_changes_only_ship_neighbourhood_witness :
  wf (init 1 3 [(1, 1)]) /\ in_bounds 1 3 1 0 = true /\
  register_attack (init 1 3 [(1, 1)]) 1 0 true true =
    Ok (mkStrategy 1 3 [(1, 0)] [[Eliminated; Sunk; Eliminated]] []) /\
  exists b2 T, ship_tiles_of b2 1 3 1 0 = Ok T.
Proof.
  assert (Hw : wf (init 1 3 [(1, 1)])) by solve_wf.
  assert (Hr : register_attack (init 1 3 [(1, 1)]) 1 0 true true =
    Ok (mkStrategy 1 3 [(1, 0)] [[Eliminated; Sunk; Eliminated]] [])) by (vm_compute; reflexivity).
  split; [exact Hw|]. split; [reflexivity|]. split; [exact Hr|].
  destruct (sink_changes_only_ship_neighbourhood _ 1 0 _ Hw eq_refl Hr) as (_ & b2 & T & _ & HT & _).
  eauto.
Defined.

Lemma register_attack_fleet_shape_witness :
  register_attack (init 1 2 [(2, 0); (1, 1)]) 0 0 true true =
    Ok (mkStrategy 1 2 [(2, 0); (1, 0)] [[Sunk; Eliminated]] []) /\
  map fst [(2, 0); (1, 0)] = map fst [(2, 0); (1, 1)].
Proof.
  assert (Hr : register_attack (init 1 2 [(2, 0); (1, 1)]) 0 0 true true =
    Ok (mkStrategy 1 2 [(2, 0); (1, 0)] [[Sunk; Eliminated]] [])) by (vm_compute; reflexivity).
  split; [exact Hr|]. exact (proj1 (register_attack_fleet_shape _ 0 0 true true _ Hr)).
Defined.

Lemma all_ships_sunk_iff_sum_zero_witness :
  (forall kv, In kv [(1, 0); (2, 0)] -> 0 <= snd kv) /\
  (all_ships_sunk (init 1 1 [(1, 0); (2, 0)]) = true <-> fleet_sum [(1, 0); (2, 0)] = 0).
Proof.
  assert (H : forall kv, In kv [(1, 0); (2, 0)] -> 0 <= snd kv).
  { intros kv Hin. simpl in Hin. destruct Hin as [<-|[<-|[]]]; simpl; lia. }
  split; [exact H|]. exact (all_ships_sunk_iff_sum_zero (init 1 1 [(1, 0); (2, 0)]) H).
Defined.

Lemma miss_report_frame_witness :
  wf (init 1 2 [(1, 1)]) /\ in_bounds 1 2 1 0 = true /\
  register_attack (init 1 2 [(1, 1)]) 1 0 false true =
    Ok (mkStrategy 1 2 [(1, 1)] [[Unknown; Miss]] []) /\
  board_get [[Unknown; Miss]] 1 0 = Ok Miss.
Proof.
  assert (Hw : wf (init 1 2 [(1, 1)])) by solve_wf.
  assert (Hr : register_attack (init 1 2 [(1, 1)]) 1 0 false true =
    Ok (mkStrategy 1 2 [(1, 1)] [[Unknown; Miss]] [])) by (vm_compute; reflexivity).
  split; [exact Hw|]. split; [reflexivity|]. split; [exact Hr|].
  exact (proj1 (miss_report_frame _ 1 0 true _ Hw eq_refl Hr)).
Defined.
